(** * The audio pipeline of the interview companion

    A shallow embedding of the record -> transcribe -> answer pipeline:
    - [electron/ipcHandlers.ts]: [convertWebMToWAV] and the IPC handlers
      ["transcribe-audio"] and ["generate-behavioral-answer"];
    - [src/components/AudioRecorder.tsx]: [startRecording], [stopRecording],
      [processAudio];
    - the earlier ["transcribe-audio"] handler and the [processAudio] of
      [Header.tsx] and [QueueCommands.tsx];
    - the credit and screenshot handlers of [electron/ipcHandlers.ts].

    The main process is modelled in a state-and-exception monad over a file
    system and a trace of host interactions; everything the host decides
    (the clock, I/O faults, FFmpeg, the providers' replies) is read from a
    [Host] record.  Console output is not modelled. *)

From Stdlib Require Import NArith Ascii String.
From stdpp Require Import base option list gmap strings pretty.

(** ** JavaScript strings

    A JavaScript string is a sequence of UTF-16 code units; the model keeps
    the strings whose code units are below 256 (one [ascii] per code unit,
    read as Latin-1).  The operations below are the ECMAScript ones on that
    range. *)
Module JsString.

Definition code (c : ascii) : N := N_of_ascii c.

(** [String.prototype.toLowerCase], one code unit at a time: [A-Z] and the
    Latin-1 capitals U+00C0..U+00DE (but not the sign U+00D7) move up by
    32; every other code unit below 256 is its own lower case. *)
Definition lowerChar (c : ascii) : ascii :=
  let n := code c in
  if ((65 <=? n) && (n <=? 90))%N then ascii_of_N (n + 32)
  else if ((192 <=? n) && (n <=? 222) && negb (n =? 215))%N
       then ascii_of_N (n + 32)
  else c.

Fixpoint toLowerCase (s : string) : string :=
  match s with
  | EmptyString => EmptyString
  | String c s' => String (lowerChar c) (toLowerCase s')
  end.

(** [s.startsWith(p)] *)
Fixpoint startsWith (s p : string) {struct p} : bool :=
  match p with
  | EmptyString => true
  | String c p' =>
      match s with
      | EmptyString => false
      | String d s' => if Ascii.eqb c d then startsWith s' p' else false
      end
  end.

(** [s.includes(sub)]: [sub] starts at some position of [s]. *)
Fixpoint includes (s sub : string) : bool :=
  startsWith s sub ||
  match s with
  | EmptyString => false
  | String _ s' => includes s' sub
  end.

(** [s.endsWith(suf)]: the last [suf.length] code units of [s] are [suf]. *)
Definition endsWith (s suf : string) : bool :=
  let n := String.length s in
  let k := String.length suf in
  if (k <=? n)%nat then String.eqb (substring (n - k) k s) suf else false.

(** White space and line terminators stripped by [trim], below 256:
    TAB, LF, VT, FF, CR, SP and NBSP. *)
Definition isWhiteSpace (c : ascii) : bool :=
  let n := code c in
  (((9 <=? n) && (n <=? 13)) || (n =? 32) || (n =? 160))%N.

Fixpoint trimStart (s : string) : string :=
  match s with
  | EmptyString => EmptyString
  | String c s' => if isWhiteSpace c then trimStart s' else s
  end.

Definition trimEnd (s : string) : string :=
  String.rev (trimStart (String.rev s)).

Definition trim (s : string) : string := trimEnd (trimStart s).

(** Truthiness of a string: only the empty string is falsy. *)
Definition truthy (s : string) : bool :=
  match s with EmptyString => false | _ => true end.

(** [v || d] for a possibly-undefined string [v]. *)
Definition orElse (v : option string) (d : string) : string :=
  match v with
  | Some s => if truthy s then s else d
  | None => d
  end.

(** The double quote, for templates that contain one. *)
Definition dquote : string := String (ascii_of_N 34) EmptyString.

End JsString.
Import JsString.

(** ** [trim] on all of UTF-16

    The strings of the handlers are modelled with code units below 256.
    A transcript can hold any code unit, so here is [trim] on sequences of
    16-bit code units, with all of ECMAScript's WhiteSpace and
    LineTerminator, to check the model of [trim] against. *)

Module JsString16.

(** The code units of a string of the model. *)
Definition units (s : string) : list N := code <$> list_ascii_of_string s.

(** WhiteSpace and LineTerminator of ECMAScript: TAB, LF, VT, FF, CR, SP,
    NBSP, U+1680, U+2000 to U+200A, LS, PS, U+202F, U+205F, U+3000 and
    the byte order mark U+FEFF. *)
Definition isWhiteSpace (n : N) : bool :=
  (((9 <=? n) && (n <=? 13)) || (n =? 32) || (n =? 160) || (n =? 5760)
   || ((8192 <=? n) && (n <=? 8202)) || (n =? 8232) || (n =? 8233)
   || (n =? 8239) || (n =? 8287) || (n =? 12288) || (n =? 65279))%N.

Fixpoint trimStart (s : list N) : list N :=
  match s with
  | [] => []
  | c :: s' => if isWhiteSpace c then trimStart s' else s
  end.

Definition trimEnd (s : list N) : list N := rev (trimStart (rev s)).

Definition trim (s : list N) : list N := trimEnd (trimStart s).

End JsString16.

(** ** Buffers *)

Abbreviation bytes := (list Byte.byte).

Module Base64.

Definition alphabet : string :=
  "ABCDEFGHIJKLMNOPQRSTUVWXYZabcdefghijklmnopqrstuvwxyz0123456789+/".

Definition digit (n : N) : ascii :=
  match String.get (N.to_nat n) alphabet with
  | Some c => c
  | None => "="%char
  end.

Definition pad : ascii := "="%char.

(** [Buffer.prototype.toString('base64')]: three bytes give four digits,
    a last group of one or two bytes is padded with [=]. *)
Fixpoint encode (bs : bytes) : string :=
  match bs with
  | [] => ""
  | [a] =>
      let x := Byte.to_N a in
      String (digit (x / 4))
        (String (digit ((x mod 4) * 16)) (String pad (String pad "")))
  | [a; b] =>
      let x := Byte.to_N a in
      let y := Byte.to_N b in
      String (digit (x / 4))
        (String (digit ((x mod 4) * 16 + y / 16))
           (String (digit ((y mod 16) * 4)) (String pad "")))
  | a :: b :: c :: rest =>
      let x := Byte.to_N a in
      let y := Byte.to_N b in
      let z := Byte.to_N c in
      String (digit (x / 4))
        (String (digit ((x mod 4) * 16 + y / 16))
           (String (digit ((y mod 16) * 4 + z / 64))
              (String (digit (z mod 64)) (encode rest))))
  end%N.

End Base64.

(** ** The main process: file system, trace and exceptions *)

(** A request that leaves the machine. *)
Inductive Request : Type :=
| ChatAudio (baseURL apiKey model instruction : string)
            (data : string) (format : string)
| WhisperUpload (apiKey : string) (file_path : string)
                (file_data : bytes) (model language : string)
| ChatCompletion (baseURL apiKey model system prompt : string).

(** What the main process does to its host, in order.  [Net r] is one
    call of a [create] method of the provider's client with the request
    [r], with what comes back of it: the client is built without
    [maxRetries], so it may send the same request again on its own after
    an error it takes for passing, and the reply or error of the call is
    that of its last attempt.  The events count calls, not attempts. *)
Inductive Event : Type :=
| FsWrite (p : string) (data : bytes)
| FsRead (p : string)
| FsUnlink (p : string)
| FfmpegRun (input output : string)
| Net (r : Request).

Record World : Type := mkWorld {
  files : gmap string bytes;   (* the file system, by path *)
  trace : list Event;          (* oldest event first *)
  clock_reads : nat            (* how many times [Date.now()] was read *)
}.

(** How an FFmpeg command ends: the ['end'] event with the output file
    written, the ['error'] event with possibly a partial output file left
    behind, or an exception thrown while the command is being set up. *)
Inductive FfmpegOutcome : Type :=
| FfEnd (out : bytes)
| FfError (msg : string) (partial : option bytes)
| FfThrow (msg : string).

(** A chat completion, as far as the handlers look into it. *)
Record Message : Type := mkMessage { content : option string }.
Record Choice : Type := mkChoice { message : option Message }.

(** Everything the host decides. *)
Record Host : Type := mkHost {
  tmpdir : string;                          (* [os.tmpdir()] *)
  date_now : nat -> N;                      (* the n-th [Date.now()] *)
  write_fault : string -> option (string * option bytes);
                                            (* [writeFileSync] throws, and
                                               what it leaves at the path *)
  read_fault : string -> option string;     (* [readFileSync] throws *)
  unlink_fault : string -> option string;   (* [unlinkSync] throws *)
  ffmpeg_run : option bytes -> FfmpegOutcome;
  chat_reply : Request -> string + list Choice;
  whisper_reply : Request -> string + string
}.

Inductive Outcome (A : Type) : Type :=
| Return (a : A)
| Throw (msg : string).
Arguments Return {A} a.
Arguments Throw {A} msg.

(** Computations over a state [S] that return or throw. *)
Module Eff.

Definition t (S A : Type) : Type := S -> Outcome A * S.

Definition ret {S A} (a : A) : t S A := fun w => (Return a, w).
Definition throw {S A} (msg : string) : t S A := fun w => (Throw msg, w).

Definition bind {S A B} (m : t S A) (k : A -> t S B) : t S B :=
  fun w =>
    match m w with
    | (Return a, w') => k a w'
    | (Throw e, w') => (Throw e, w')
    end.

(** [try { body } catch (e) { handler }] *)
Definition try_catch {S A} (body : t S A) (handler : string -> t S A) : t S A :=
  fun w =>
    match body w with
    | (Return a, w') => (Return a, w')
    | (Throw e, w') => handler e w'
    end.

(** [try { body } finally { cleanup }]; an exception of [cleanup]
    replaces the outcome of [body]. *)
Definition try_finally {S A} (body : t S A) (cleanup : t S unit) : t S A :=
  fun w =>
    match body w with
    | (r, w') =>
        match cleanup w' with
        | (Return _, w'') => (r, w'')
        | (Throw e, w'') => (Throw e, w'')
        end
    end.

Definition get {S} : t S S := fun w => (Return w, w).
Definition modify {S} (f : S -> S) : t S unit := fun w => (Return tt, f w).

End Eff.

Notation "x <- m ;; k" := (Eff.bind m (fun x => k))
  (at level 100, m at next level, right associativity).
Notation "m ;;; k" := (Eff.bind m (fun _ => k))
  (at level 100, right associativity).

Module IO.

Definition t (A : Type) : Type := Eff.t World A.

Definition ret {A} (a : A) : t A := Eff.ret a.
Definition throw {A} (msg : string) : t A := Eff.throw msg.
Definition try_catch {A} (body : t A) (handler : string -> t A) : t A :=
  Eff.try_catch body handler.
Definition try_finally {A} (body : t A) (cleanup : t unit) : t A :=
  Eff.try_finally body cleanup.

Definition emit (e : Event) : t unit :=
  Eff.modify (fun w => mkWorld (files w) (trace w ++ [e]) (clock_reads w)).

Definition get_files : t (gmap string bytes) :=
  fun w => (Return (files w), w).

Definition set_files (fs : gmap string bytes) : t unit :=
  Eff.modify (fun w => mkWorld fs (trace w) (clock_reads w)).

End IO.

Section MainProcess.

Variable h : Host.

(** [Date.now()] *)
Definition Date_now : IO.t N :=
  fun w => (Return (date_now h (clock_reads w)),
            mkWorld (files w) (trace w) (S (clock_reads w))).

(** [path.join(dir, name)] on a POSIX host, for a directory in normal
    form and a name without separators, as the names built here are when
    the renderer passes [recording.<ext>]: nothing is left to normalise.
    (For other names [path.join] resolves the dot segments and the result
    can lie outside [dir].) *)
Definition path_join (dir name : string) : string := dir +:+ "/" +:+ name.

(** [fs.writeFileSync(p, data)].  When the call throws, the host says
    with what error and what the call left at the path: the path as it
    was ([None], as when the file cannot be opened), or a file created or
    truncated and written in part (as when the disk fills up). *)
Definition writeFileSync (p : string) (data : bytes) : IO.t unit :=
  IO.emit (FsWrite p data) ;;;
  match write_fault h p with
  | Some (e, remains) =>
      match remains with
      | Some part => fs <- IO.get_files ;; IO.set_files (<[p := part]> fs)
      | None => IO.ret tt
      end ;;;
      IO.throw e
  | None => fs <- IO.get_files ;; IO.set_files (<[p := data]> fs)
  end.

(** [fs.readFileSync(p)]: throws when the host faults or the file is
    missing. *)
Definition readFileSync (p : string) : IO.t bytes :=
  IO.emit (FsRead p) ;;;
  match read_fault h p with
  | Some e => IO.throw e
  | None =>
      fs <- IO.get_files ;;
      match fs !! p with
      | Some data => IO.ret data
      | None => IO.throw ("ENOENT: no such file or directory, open '" +:+ p +:+ "'")
      end
  end.

(** [fs.unlinkSync(p)]: throws when the host refuses to remove the file
    (as with EBUSY or EPERM), which then stays, and when there is no such
    file. *)
Definition unlinkSync (p : string) : IO.t unit :=
  IO.emit (FsUnlink p) ;;;
  match unlink_fault h p with
  | Some e => IO.throw e
  | None =>
      fs <- IO.get_files ;;
      match fs !! p with
      | Some _ => IO.set_files (delete p fs)
      | None => IO.throw ("ENOENT: no such file or directory, unlink '" +:+ p +:+ "'")
      end
  end.

(** [try { fs.unlinkSync(p) } catch {}] *)
Definition try_unlink (p : string) : IO.t unit :=
  IO.try_catch (unlinkSync p) (fun _ => IO.ret tt).

(** What the FFmpeg command reports back to its listeners. *)
Inductive FfmpegSignal : Type :=
| OnEnd
| OnError (msg : string).

(** [ffmpeg(inputPath).toFormat('wav').audioFrequency(16000)
    .audioChannels(1).audioBitrate('16k')....save(outputPath)]: the host
    runs this one command on the contents of the input file. *)
Definition ffmpeg_save (inputPath outputPath : string) : IO.t FfmpegSignal :=
  fs <- IO.get_files ;;
  match ffmpeg_run h (fs !! inputPath) with
  | FfThrow e => IO.throw e
  | FfEnd out =>
      IO.emit (FfmpegRun inputPath outputPath) ;;;
      IO.set_files (<[outputPath := out]> fs) ;;;
      IO.ret OnEnd
  | FfError e partial =>
      IO.emit (FfmpegRun inputPath outputPath) ;;;
      match partial with
      | Some out => IO.set_files (<[outputPath := out]> fs)
      | None => IO.ret tt
      end ;;;
      IO.ret (OnError e)
  end.

Definition inputPath_of (now : N) : string :=
  path_join (tmpdir h) ("input_" +:+ pretty now +:+ ".webm").
Definition outputPath_of (now : N) : string :=
  path_join (tmpdir h) ("output_" +:+ pretty now +:+ ".wav").

(** [convertWebMToWAV(webmBuffer)]: the promise resolves to [Return] and
    rejects to [Throw]. *)
Definition convertWebMToWAV (webmBuffer : bytes) : IO.t bytes :=
  t_in <- Date_now ;;
  let inputPath := inputPath_of t_in in
  t_out <- Date_now ;;
  let outputPath := outputPath_of t_out in
  signal <- IO.try_catch
              (writeFileSync inputPath webmBuffer ;;;
               ffmpeg_save inputPath outputPath)
              (fun error =>
                 try_unlink inputPath ;;;
                 try_unlink outputPath ;;;
                 IO.throw ("WebM to WAV conversion setup failed: " +:+ error)) ;;
  match signal with
  | OnEnd =>
      IO.try_catch
        (wavBuffer <- readFileSync outputPath ;;
         try_unlink inputPath ;;;
         try_unlink outputPath ;;;
         IO.ret wavBuffer)
        (fun readError =>
           IO.throw ("Failed to read converted WAV file: " +:+ readError))
  | OnError err =>
      try_unlink inputPath ;;;
      try_unlink outputPath ;;;
      IO.throw ("FFmpeg conversion failed: " +:+ err)
  end.

(** *** The IPC handlers *)

(** What [configHelper] (not part of these sources) answers:
    [hasApiKey()] and the fields of [loadConfig()] the handlers read. *)
Record Config : Type := mkConfig {
  hasApiKey : bool;
  apiKey : option string;
  solutionModel : option string
}.

Record TranscriptionResult : Type := mkTranscription { text : string }.
Record AnswerResult : Type := mkAnswer { answer : string }.

Definition openrouter_url : string := "https://openrouter.ai/api/v1".
(** Where [new OpenAI({ apiKey })] sends its requests. *)
Definition openai_url : string := "https://api.openai.com/v1".

Definition transcribe_instruction : string :=
  "Please transcribe this audio file. Return only the transcribed text without any additional commentary.".

(** [openai.chat.completions.create(...)]: one call, which resolves to
    the choices or throws what the client gives up with. *)
Definition chat_create (r : Request) : IO.t (list Choice) :=
  IO.emit (Net r) ;;;
  match chat_reply h r with
  | inl e => IO.throw e
  | inr choices => IO.ret choices
  end.

(** [openai.audio.transcriptions.create({ file:
    fs.createReadStream(p), model, language })]: one call, which uploads
    what the file holds and resolves to the transcript or throws what the
    client gives up with. *)
Definition whisper_create (key p model language : string) : IO.t string :=
  fs <- IO.get_files ;;
  match fs !! p with
  | None => IO.throw ("ENOENT: no such file or directory, open '" +:+ p +:+ "'")
  | Some data =>
      let r := WhisperUpload key p data model language in
      IO.emit (Net r) ;;;
      match whisper_reply h r with
      | inl e => IO.throw e
      | inr transcript => IO.ret transcript
      end
  end.

(** [completion.choices[0]?.message?.content] *)
Definition first_content (choices : list Choice) : option string :=
  match choices with
  | [] => None
  | c :: _ =>
      match message c with
      | None => None
      | Some m => content m
      end
  end.

(** The part of the ["transcribe-audio"] handler for an OpenRouter key. *)
Definition transcribe_openrouter (key : string) (audioBuffer : bytes)
    (isWebM : bool) (audioFormat : string) : IO.t TranscriptionResult :=
  processed <-
    (if isWebM then
       IO.try_catch
         (wav <- convertWebMToWAV audioBuffer ;; IO.ret (wav, "wav"))
         (fun conversionError =>
            IO.throw ("Failed to convert WebM audio to WAV format: "
                      +:+ conversionError
                      +:+ ". Please ensure FFmpeg is properly installed."))
     else IO.ret (audioBuffer, audioFormat)) ;;
  let processedAudioBuffer := fst processed in
  let finalFormat := snd processed in
  let base64Audio := Base64.encode processedAudioBuffer in
  choices <- chat_create
               (ChatAudio openrouter_url key "openai/gpt-4o-audio-preview"
                  transcribe_instruction base64Audio finalFormat) ;;
  let transcribedText := orElse (first_content choices) "" in
  IO.ret (mkTranscription transcribedText).

Definition tempFilePath_of (now : N) (filename : string) : string :=
  path_join (tmpdir h) ("temp_audio_" +:+ pretty now +:+ "_" +:+ filename).

(** The part of the handler for any other key (Whisper). *)
Definition transcribe_whisper (key : string) (audioBuffer : bytes)
    (filename : string) : IO.t TranscriptionResult :=
  now <- Date_now ;;
  let tempFilePath := tempFilePath_of now filename in
  writeFileSync tempFilePath audioBuffer ;;;
  IO.try_finally
    (transcript <- whisper_create key tempFilePath "whisper-1" "en" ;;
     IO.ret (mkTranscription transcript))
    (try_unlink tempFilePath).

(** [ipcMain.handle("transcribe-audio", async (_event, audioBuffer,
    filename) => ...)] *)
Definition transcribe_audio (cfg : Config) (audioBuffer : bytes)
    (filename : string) : IO.t TranscriptionResult :=
  IO.try_catch
    (if negb (hasApiKey cfg)
     then IO.throw "API key is required for audio transcription"
     else
       match apiKey cfg with
       | None => IO.throw "API key not found"
       | Some key =>
           if negb (truthy key) then IO.throw "API key not found"
           else
             let isWebM := includes (toLowerCase filename) "webm" in
             let isMp3 := endsWith (toLowerCase filename) ".mp3" in
             let audioFormat := if isMp3 then "mp3" else "wav" in
             if startsWith key "sk-or-"
             then transcribe_openrouter key audioBuffer isWebM audioFormat
             else transcribe_whisper key audioBuffer filename
       end)
    (fun error => IO.throw error).

Definition nl : string := String (ascii_of_N 10) EmptyString.

Definition behavioral_prompt (question : string) : string :=
  "You are an expert interview coach helping someone prepare for behavioral interviews. " +:+ nl +:+
  nl +:+
  "The interviewer asked: " +:+ dquote +:+ question +:+ dquote +:+ nl +:+
  nl +:+
  "Please provide a comprehensive, professional answer using the STAR method (Situation, Task, Action, Result). The answer should:" +:+ nl +:+
  "1. Be specific and detailed" +:+ nl +:+
  "2. Show leadership, problem-solving, or relevant skills" +:+ nl +:+
  "3. Include quantifiable results when possible" +:+ nl +:+
  "4. Be authentic and conversational" +:+ nl +:+
  "5. Be around 2-3 minutes when spoken (approximately 300-450 words)" +:+ nl +:+
  nl +:+
  "Provide only the answer, without any prefacing text like " +:+ dquote +:+
  "Here's a good answer:" +:+ dquote +:+ " or similar.".

Definition coach_persona : string :=
  "You are an expert interview coach specializing in behavioral interview questions. Provide detailed, professional answers using the STAR method.".

Definition fallback_answer : string :=
  "I apologize, but I couldn't generate an answer for this question.".

(** [ipcMain.handle("generate-behavioral-answer", async (_event,
    question) => ...)] *)
Definition generate_behavioral_answer (cfg : Config) (question : string)
    : IO.t AnswerResult :=
  IO.try_catch
    (if negb (hasApiKey cfg)
     then IO.throw "API key is required for answer generation"
     else
       match apiKey cfg with
       | None => IO.throw "API key not found"
       | Some key =>
           if negb (truthy key) then IO.throw "API key not found"
           else
             let client :=
               if startsWith key "sk-or-"
               then (openrouter_url, orElse (solutionModel cfg) "openai/gpt-4o")
               else (openai_url, orElse (solutionModel cfg) "gpt-4o") in
             let baseURL := fst client in
             let modelToUse := snd client in
             let prompt := behavioral_prompt question in
             choices <- chat_create
                          (ChatCompletion baseURL key modelToUse
                             coach_persona prompt) ;;
             let answer := orElse (first_content choices) fallback_answer in
             IO.ret (mkAnswer answer)
       end)
    (fun error => IO.throw error).

End MainProcess.

(** ** The renderer: [AudioRecorder.tsx] *)

Record Blob : Type := mkBlob { blob_data : bytes; blob_type : string }.

(** A [MediaRecorder] together with what its [onstop] closure captured. *)
Record Recorder : Type := mkRecorder {
  rec_stream : list nat;        (* the tracks of the stream it records *)
  rec_mimeType : string;
  rec_fileExtension : string
}.

(** What the renderer shows or calls, in order. *)
Inductive REvent : Type :=
| Toast (title msg variant : string)
| InvokeTranscribe (audio : bytes) (filename : string)
| InvokeGenerate (question : string)
| TranscriptionComplete (transcription answer : string).

(** The component's state and refs ([answer_shown] is its [answer]), the
    microphone tracks that are live, and the main process the renderer
    talks to. *)
Record Sys : Type := mkSys {
  isRecording : bool;
  isProcessing : bool;
  audioBlob : option Blob;
  transcription : string;
  answer_shown : string;
  audioFormat : string;
  mediaRecorderRef : option Recorder;
  audioChunksRef : list bytes;
  live_tracks : list nat;
  rtrace : list REvent;
  main : World
}.

(** What the browser decides. *)
Record Browser : Type := mkBrowser {
  getUserMedia : string + list nat;      (* rejects, or a stream's tracks *)
  isTypeSupported : string -> bool;      (* [MediaRecorder.isTypeSupported] *)
  start_fault : option string;           (* [mediaRecorder.start] throws *)
  final_chunk : bytes                    (* what [stop] flushes before [onstop] *)
}.

(** How [processAudio] left: without a recording, by the end of its [try]
    block, or through its [catch] block. *)
Inductive ProcessExit : Type :=
| NoRecording
| Finished
| Caught (error : string).

Module UI.

Definition t (A : Type) : Type := Eff.t Sys A.

Definition setIsRecording (b : bool) : t unit :=
  Eff.modify (fun s => mkSys b (isProcessing s) (audioBlob s) (transcription s)
    (answer_shown s) (audioFormat s) (mediaRecorderRef s) (audioChunksRef s)
    (live_tracks s) (rtrace s) (main s)).

Definition setIsProcessing (b : bool) : t unit :=
  Eff.modify (fun s => mkSys (isRecording s) b (audioBlob s) (transcription s)
    (answer_shown s) (audioFormat s) (mediaRecorderRef s) (audioChunksRef s)
    (live_tracks s) (rtrace s) (main s)).

Definition setAudioBlob (b : option Blob) : t unit :=
  Eff.modify (fun s => mkSys (isRecording s) (isProcessing s) b (transcription s)
    (answer_shown s) (audioFormat s) (mediaRecorderRef s) (audioChunksRef s)
    (live_tracks s) (rtrace s) (main s)).

Definition setTranscription (x : string) : t unit :=
  Eff.modify (fun s => mkSys (isRecording s) (isProcessing s) (audioBlob s) x
    (answer_shown s) (audioFormat s) (mediaRecorderRef s) (audioChunksRef s)
    (live_tracks s) (rtrace s) (main s)).

Definition setAnswer (x : string) : t unit :=
  Eff.modify (fun s => mkSys (isRecording s) (isProcessing s) (audioBlob s)
    (transcription s) x (audioFormat s) (mediaRecorderRef s) (audioChunksRef s)
    (live_tracks s) (rtrace s) (main s)).

Definition setAudioFormat (x : string) : t unit :=
  Eff.modify (fun s => mkSys (isRecording s) (isProcessing s) (audioBlob s)
    (transcription s) (answer_shown s) x (mediaRecorderRef s) (audioChunksRef s)
    (live_tracks s) (rtrace s) (main s)).

Definition setMediaRecorderRef (r : option Recorder) : t unit :=
  Eff.modify (fun s => mkSys (isRecording s) (isProcessing s) (audioBlob s)
    (transcription s) (answer_shown s) (audioFormat s) r (audioChunksRef s)
    (live_tracks s) (rtrace s) (main s)).

Definition setAudioChunksRef (c : list bytes) : t unit :=
  Eff.modify (fun s => mkSys (isRecording s) (isProcessing s) (audioBlob s)
    (transcription s) (answer_shown s) (audioFormat s) (mediaRecorderRef s) c
    (live_tracks s) (rtrace s) (main s)).

Definition setLiveTracks (l : list nat) : t unit :=
  Eff.modify (fun s => mkSys (isRecording s) (isProcessing s) (audioBlob s)
    (transcription s) (answer_shown s) (audioFormat s) (mediaRecorderRef s)
    (audioChunksRef s) l (rtrace s) (main s)).

Definition emit (e : REvent) : t unit :=
  Eff.modify (fun s => mkSys (isRecording s) (isProcessing s) (audioBlob s)
    (transcription s) (answer_shown s) (audioFormat s) (mediaRecorderRef s)
    (audioChunksRef s) (live_tracks s) (rtrace s ++ [e]) (main s)).

(** Runs a computation of the main process on the renderer's behalf: the
    promise of an [ipcRenderer.invoke]. *)
Definition in_main {A} (m : IO.t A) : t A :=
  fun s =>
    match m (main s) with
    | (r, w') =>
        (r, mkSys (isRecording s) (isProcessing s) (audioBlob s)
              (transcription s) (answer_shown s) (audioFormat s)
              (mediaRecorderRef s) (audioChunksRef s) (live_tracks s)
              (rtrace s) w')
    end.

Definition showToast (title msg variant : string) : t unit :=
  emit (Toast title msg variant).

End UI.

Section Renderer.

Variable br : Browser.
Variable h : Host.
Variable cfg : Config.

(** [navigator.mediaDevices.getUserMedia({ audio: ... })]: on success the
    tracks of the new stream are live. *)
Definition acquire_stream : UI.t (list nat) :=
  match getUserMedia br with
  | inl e => Eff.throw e
  | inr tracks =>
      s <- Eff.get ;;
      UI.setLiveTracks (live_tracks s ++ tracks) ;;;
      Eff.ret tracks
  end.

(** [new MediaRecorder(stream, { mimeType })]: a type that is not supported
    is refused with [NotSupportedError]. *)
Definition new_MediaRecorder (stream : list nat) (mimeType fileExtension : string)
    : UI.t Recorder :=
  if isTypeSupported br mimeType
  then Eff.ret (mkRecorder stream mimeType fileExtension)
  else Eff.throw "NotSupportedError".

(** [mediaRecorder.start(1000)] *)
Definition recorder_start : UI.t unit :=
  match start_fault br with
  | Some e => Eff.throw e
  | None => Eff.ret tt
  end.

(** [track.stop()] for every track of the stream. *)
Definition stop_tracks (stream : list nat) : UI.t unit :=
  s <- Eff.get ;;
  UI.setLiveTracks (filter (fun t => t ∉ stream) (live_tracks s)).

Definition webm_notice : REvent :=
  Toast "Info"
    "Recording in WebM format. Will be converted to WAV for OpenRouter compatibility."
    "neutral".

(** The format chain of [startRecording]: the MIME type and the file
    extension it settles on. *)
Definition choose_format : UI.t (string * string) :=
  if isTypeSupported br "audio/mp3" then Eff.ret ("audio/mp3", "mp3")
  else if isTypeSupported br "audio/wav" then Eff.ret ("audio/wav", "wav")
  else if isTypeSupported br "audio/wave" then Eff.ret ("audio/wave", "wav")
  else if isTypeSupported br "audio/x-wav" then Eff.ret ("audio/x-wav", "wav")
  else
    UI.emit webm_notice ;;;
    Eff.ret ("audio/webm;codecs=opus", "webm").

Definition startRecording : UI.t unit :=
  Eff.try_catch
    (stream <- acquire_stream ;;
     fmt <- choose_format ;;
     let mimeType := fst fmt in
     let fileExtension := snd fmt in
     mediaRecorder <- new_MediaRecorder stream mimeType fileExtension ;;
     UI.setMediaRecorderRef (Some mediaRecorder) ;;;
     UI.setAudioChunksRef [] ;;;
     recorder_start ;;;
     UI.setIsRecording true ;;;
     UI.showToast "Recording" "Audio recording started" "success")
    (fun error =>
       UI.showToast "Error"
         "Failed to start recording. Please check microphone permissions."
         "error").

(** [mediaRecorder.ondataavailable] *)
Definition ondataavailable (data : bytes) : UI.t unit :=
  if (0 <? length data)%nat
  then s <- Eff.get ;; UI.setAudioChunksRef (audioChunksRef s ++ [data])
  else Eff.ret tt.

(** [mediaRecorder.onstop] of the recorder [r] *)
Definition onstop (r : Recorder) : UI.t unit :=
  s <- Eff.get ;;
  let blob := mkBlob (concat (audioChunksRef s)) (rec_mimeType r) in
  UI.setAudioBlob (Some blob) ;;;
  UI.setAudioFormat (rec_fileExtension r) ;;;
  stop_tracks (rec_stream r).

(** [stopRecording]; [mediaRecorder.stop()] makes the recorder deliver its
    last data and then its [stop] event, after the callback has run. *)
Definition stopRecording : UI.t unit :=
  s <- Eff.get ;;
  match mediaRecorderRef s with
  | Some r =>
      if isRecording s then
        UI.setIsRecording false ;;;
        UI.showToast "Recording" "Audio recording stopped" "neutral" ;;;
        ondataavailable (final_chunk br) ;;;
        onstop r
      else Eff.ret tt
  | None => Eff.ret tt
  end.

(** [window.electronAPI.transcribeAudio] and
    [window.electronAPI.generateBehavioralAnswer] *)
Definition transcribeAudio (audio : bytes) (filename : string)
    : UI.t TranscriptionResult :=
  UI.emit (InvokeTranscribe audio filename) ;;;
  UI.in_main (transcribe_audio h cfg audio filename).

Definition generateBehavioralAnswer (question : string) : UI.t AnswerResult :=
  UI.emit (InvokeGenerate question) ;;;
  UI.in_main (generate_behavioral_answer h cfg question).

Definition processAudio : UI.t ProcessExit :=
  s <- Eff.get ;;
  match audioBlob s with
  | None => Eff.ret NoRecording
  | Some blob =>
      UI.setIsProcessing true ;;;
      UI.showToast "Processing" "Transcribing audio and generating answer..."
        "neutral" ;;;
      Eff.try_finally
        (Eff.try_catch
           (let arrayBuffer := blob_data blob in
            transcriptionResponse <-
              transcribeAudio arrayBuffer ("recording." +:+ audioFormat s) ;;
            let transcribedText := text transcriptionResponse in
            UI.setTranscription transcribedText ;;;
            if truthy (trim transcribedText) then
              answerResponse <- generateBehavioralAnswer transcribedText ;;
              let generatedAnswer := answer answerResponse in
              UI.setAnswer generatedAnswer ;;;
              UI.emit (TranscriptionComplete transcribedText generatedAnswer) ;;;
              UI.showToast "Success" "Audio processed and answer generated!"
                "success" ;;;
              Eff.ret Finished
            else
              UI.showToast "Warning" "No speech detected in the recording"
                "error" ;;;
              Eff.ret Finished)
           (fun error =>
              UI.showToast "Error" "Failed to process audio. Please try again."
                "error" ;;;
              Eff.ret (Caught error)))
        (UI.setIsProcessing false)
  end.

End Renderer.

(** ** Vocabulary of the properties *)

(** The requests among the events of a trace, in order. *)
Definition requests (t : list Event) : list Request :=
  omap (fun e => match e with Net r => Some r | _ => None end) t.

(** A file name without separators: joined to a directory it names a
    file of that directory. *)
Definition plain_name (name : string) : bool :=
  negb (includes name "/") && negb (includes name "\").

(** The files after [try { fs.unlinkSync(p) } catch {}]: without [p],
    unless the host refuses to remove it. *)
Definition unlinked (h : Host) (p : string) (fs : gmap string bytes)
  : gmap string bytes :=
  match unlink_fault h p with
  | Some _ => fs
  | None => delete p fs
  end.

(** The files after a step that may have left something at [p]. *)
Definition left_by (remains : option bytes) (p : string)
    (fs : gmap string bytes) : gmap string bytes :=
  match remains with
  | Some part => <[p := part]> fs
  | None => fs
  end.

(** [fs'] is [fs] with the two files of a conversion cleaned up: every
    other path is as it was, and each of the two is gone unless the host
    refused to remove it. *)
Definition tidied (h : Host) (p q : string) (fs fs' : gmap string bytes)
  : Prop :=
  (forall i, i <> p -> i <> q -> fs' !! i = fs !! i)
  /\ (unlink_fault h p = None -> fs' !! p = None)
  /\ (unlink_fault h q = None -> fs' !! q = None).

(** An event that stays on the machine. *)
Definition local (e : Event) : Prop :=
  match e with Net _ => False | _ => True end.

(** Every event a computation adds to the trace satisfies [Q]. *)
Definition emits_only {A} (Q : Event -> Prop) (m : IO.t A) : Prop :=
  forall w, exists evs, trace (snd (m w)) = trace w ++ evs /\ Forall Q evs.

(** The first thing [convertWebMToWAV] does is to write its input file,
    [<tmpdir>/input_<now>.webm]; a trace shows a conversion when it has
    such a write. *)
Definition is_conversion_input (h : Host) (e : Event) : bool :=
  match e with
  | FsWrite p _ => startsWith p (tmpdir h +:+ "/input_")
  | _ => false
  end.

Definition conversion_triggered (h : Host) (evs : list Event) : bool :=
  existsb (is_conversion_input h) evs.

(** The format the handler declares for a file name. *)
Definition declared_format (filename : string) : string :=
  if endsWith (toLowerCase filename) ".mp3" then "mp3" else "wav".

(** The request of the OpenRouter path for a payload and a format tag. *)
Definition audio_request (key : string) (payload : bytes) (format : string)
    : Request :=
  ChatAudio openrouter_url key "openai/gpt-4o-audio-preview"
    transcribe_instruction (Base64.encode payload) format.

(** A credential the handlers accept. *)
Definition configured (cfg : Config) (key : string) : Prop :=
  hasApiKey cfg = true /\ apiKey cfg = Some key /\ key <> "".

Definition is_ffmpeg_run (e : Event) : bool :=
  match e with FfmpegRun _ _ => true | _ => false end.

(** The request of ["generate-behavioral-answer"] for a question. *)
Definition generation_request (cfg : Config) (key question : string)
    : Request :=
  if startsWith key "sk-or-"
  then ChatCompletion openrouter_url key
         (orElse (solutionModel cfg) "openai/gpt-4o")
         coach_persona (behavioral_prompt question)
  else ChatCompletion openai_url key
         (orElse (solutionModel cfg) "gpt-4o")
         coach_persona (behavioral_prompt question).

(** The capture formats in their order of preference, each with the file
    extension it is saved under, and the fallback. *)
Definition preference : list (string * string) :=
  [("audio/mp3", "mp3"); ("audio/wav", "wav");
   ("audio/wave", "wav"); ("audio/x-wav", "wav")].

Definition fallback_format : string * string :=
  ("audio/webm;codecs=opus", "webm").

(** The first preferred format the host supports, if any. *)
Definition first_supported (supported : string -> bool)
    : option (string * string) :=
  List.find (fun f => supported (fst f)) preference.

Definition spec_choose (supported : string -> bool) : string * string :=
  match first_supported supported with
  | Some f => f
  | None => fallback_format
  end.

Definition fallback_reached (supported : string -> bool) : bool :=
  match first_supported supported with
  | Some _ => false
  | None => true
  end.

(** The notices of [processAudio]. *)
Definition processing_notice : REvent :=
  Toast "Processing" "Transcribing audio and generating answer..." "neutral".
Definition no_speech_notice : REvent :=
  Toast "Warning" "No speech detected in the recording" "error".
Definition failure_notice : REvent :=
  Toast "Error" "Failed to process audio. Please try again." "error".
Definition start_failure_notice : REvent :=
  Toast "Error"
    "Failed to start recording. Please check microphone permissions." "error".

(** *** Sample hosts *)

Definition sample_clock (n : nat) : N := (1700000000000 + N.of_nat n)%N.

(** The first bytes of a WebM file and of a WAV file. *)
Definition webm_bytes : bytes := [Byte.x1a; Byte.x45; Byte.xdf; Byte.xa3].
Definition wav_bytes : bytes := [Byte.x52; Byte.x49; Byte.x46; Byte.x46].

Definition spoken (s : string) : list Choice :=
  [mkChoice (Some (mkMessage (Some s)))].

(** A host on which nothing fails. *)
Definition sample_host : Host :=
  mkHost "/tmp" sample_clock (fun _ => None) (fun _ => None)
    (fun _ => None)
    (fun _ => FfEnd wav_bytes)
    (fun _ => inr (spoken "Tell me about a time you led a team."))
    (fun _ => inr "Tell me about a time you led a team.").

(** A host on which FFmpeg succeeds and the converted file cannot be read
    back. *)
Definition unreadable_host : Host :=
  mkHost "/tmp" sample_clock (fun _ => None)
    (fun _ => Some "EMFILE: too many open files")
    (fun _ => None)
    (fun _ => FfEnd wav_bytes)
    (fun _ => inr (spoken "Tell me about a time you led a team."))
    (fun _ => inr "Tell me about a time you led a team.").

(** A host whose providers hear nothing. *)
Definition silent_host : Host :=
  mkHost "/tmp" sample_clock (fun _ => None) (fun _ => None)
    (fun _ => None)
    (fun _ => FfEnd wav_bytes)
    (fun _ => inr (spoken "  "))
    (fun _ => inr "  ").

(** A host whose chat provider answers with a choice without content. *)
Definition speechless_host : Host :=
  mkHost "/tmp" sample_clock (fun _ => None) (fun _ => None)
    (fun _ => None)
    (fun _ => FfEnd wav_bytes)
    (fun _ => inr [mkChoice (Some (mkMessage None))])
    (fun _ => inr "").

Definition openrouter_cfg : Config := mkConfig true (Some "sk-or-v1-abc") None.
Definition openai_cfg : Config := mkConfig true (Some "sk-abc") None.

Definition fresh_world : World := mkWorld ∅ [] 0.

Definition fresh_sys : Sys :=
  mkSys false false None "" "" "webm" None [] [] [] fresh_world.

(** A recording that was stopped, saved under the extension [ext]. *)
Definition recorded (data : bytes) (mime ext : string) : Sys :=
  mkSys false false (Some (mkBlob data mime)) "" "" ext None [] [] []
    fresh_world.

(** A browser that grants the microphone and records none of the five
    formats. *)
Definition bare_browser : Browser :=
  mkBrowser (inr [0]) (fun _ => false) None [].

(** A browser that records WebM and whose recorder refuses to start. *)
Definition stalling_browser : Browser :=
  mkBrowser (inr [0])
    (fun m => String.eqb m "audio/webm;codecs=opus")
    (Some "NotSupportedError") [].

(** A browser that records WebM only. *)
Definition webm_browser : Browser :=
  mkBrowser (inr [0])
    (fun m => String.eqb m "audio/webm;codecs=opus") None webm_bytes.

(** A browser that records WAV under its second name only. *)
Definition wave_browser : Browser :=
  mkBrowser (inr [0]) (fun m => String.eqb m "audio/wave") None wav_bytes.

(** ** The earlier handler and the other recorders

    The sources keep an earlier ["transcribe-audio"] handler, written
    before the conversion was added, and two more components,
    [Header.tsx] and [QueueCommands.tsx], that record and call the
    handlers on their own. *)

Section Earlier.

Variable h : Host.

(** The earlier ["transcribe-audio"] handler: the buffer goes out as it
    is, tagged from the file name. *)
Definition earlier_transcribe_audio (cfg : Config) (audioBuffer : bytes)
    (filename : string) : IO.t TranscriptionResult :=
  IO.try_catch
    (if negb (hasApiKey cfg)
     then IO.throw "API key is required for audio transcription"
     else
       match apiKey cfg with
       | None => IO.throw "API key not found"
       | Some key =>
           if negb (truthy key) then IO.throw "API key not found"
           else
             let audioFormat :=
               if endsWith (toLowerCase filename) ".mp3" then "mp3" else "wav" in
             if startsWith key "sk-or-"
             then
               let base64Audio := Base64.encode audioBuffer in
               choices <- chat_create h
                            (ChatAudio openrouter_url key
                               "openai/gpt-4o-audio-preview"
                               transcribe_instruction base64Audio audioFormat) ;;
               let transcribedText := orElse (first_content choices) "" in
               IO.ret (mkTranscription transcribedText)
             else transcribe_whisper h key audioBuffer filename
       end)
    (fun error => IO.throw error).

Variable cfg : Config.

(** [processAudio] of [Header.tsx]; [onTranscriptionComplete] is an
    optional prop there, called only when it was given. *)
Definition Header_processAudio (onTranscriptionComplete : bool)
    : UI.t ProcessExit :=
  s <- Eff.get ;;
  match audioBlob s with
  | None => Eff.ret NoRecording
  | Some blob =>
      UI.setIsProcessing true ;;;
      UI.showToast "Processing" "Transcribing audio and generating answer..."
        "neutral" ;;;
      Eff.try_finally
        (Eff.try_catch
           (let arrayBuffer := blob_data blob in
            transcriptionResponse <-
              transcribeAudio h cfg arrayBuffer "recording.webm" ;;
            let transcribedText := text transcriptionResponse in
            UI.setTranscription transcribedText ;;;
            if truthy (trim transcribedText) then
              answerResponse <- generateBehavioralAnswer h cfg transcribedText ;;
              let generatedAnswer := answer answerResponse in
              UI.setAnswer generatedAnswer ;;;
              (if onTranscriptionComplete
               then UI.emit (TranscriptionComplete transcribedText
                               generatedAnswer)
               else Eff.ret tt) ;;;
              UI.showToast "Success" "Audio processed and answer generated!"
                "success" ;;;
              Eff.ret Finished
            else
              UI.showToast "Warning" "No speech detected in the recording"
                "error" ;;;
              Eff.ret Finished)
           (fun error =>
              UI.showToast "Error" "Failed to process audio. Please try again."
                "error" ;;;
              Eff.ret (Caught error)))
        (UI.setIsProcessing false)
  end.

(** [processAudio] of [QueueCommands.tsx]: it keeps no transcription or
    answer of its own. *)
Definition QueueCommands_processAudio (onTranscriptionComplete : bool)
    : UI.t ProcessExit :=
  s <- Eff.get ;;
  match audioBlob s with
  | None => Eff.ret NoRecording
  | Some blob =>
      UI.setIsProcessing true ;;;
      UI.showToast "Processing" "Transcribing audio and generating answer..."
        "neutral" ;;;
      Eff.try_finally
        (Eff.try_catch
           (let arrayBuffer := blob_data blob in
            transcriptionResponse <-
              transcribeAudio h cfg arrayBuffer "recording.webm" ;;
            let transcribedText := text transcriptionResponse in
            if truthy (trim transcribedText) then
              answerResponse <- generateBehavioralAnswer h cfg transcribedText ;;
              let generatedAnswer := answer answerResponse in
              (if onTranscriptionComplete
               then UI.emit (TranscriptionComplete transcribedText
                               generatedAnswer)
               else Eff.ret tt) ;;;
              UI.showToast "Success" "Audio processed and answer generated!"
                "success" ;;;
              Eff.ret Finished
            else
              UI.showToast "Warning" "No speech detected in the recording"
                "error" ;;;
              Eff.ret Finished)
           (fun error =>
              UI.showToast "Error" "Failed to process audio. Please try again."
                "error" ;;;
              Eff.ret (Caught error)))
        (UI.setIsProcessing false)
  end.

End Earlier.

(** The recorder delivers its data in chunks, one [dataavailable] event
    each. *)
Fixpoint deliver (chunks : list bytes) : UI.t unit :=
  match chunks with
  | [] => Eff.ret tt
  | data :: rest => ondataavailable data ;;; deliver rest
  end.

(** ** The credit and screenshot handlers *)

(** What the main process sends to the page. *)
Inductive WinMsg : Type :=
| CreditsUpdated (credits : Z)
| ApiKeyInvalid
| ScreenshotDeleted (path : string).

(** What the handlers ask of the rest of the main process, whose code is
    elsewhere. *)
Inductive DepCall : Type :=
| ProcessScreenshots
| DeleteScreenshot (path : string).

(** The reply objects of the handlers: [success] and [error] are both
    optional. *)
Record Reply : Type := mkReply {
  success : option bool;
  error : option string
}.

(** JavaScript numbers are doubles.  The credit count is a whole number;
    the model keeps it as the integer the double stands for. *)
Module JsNumber.

(** [2^53]: up to it every whole number is a double. *)
Definition two53 : Z := 9007199254740992.

(** [c - 1] as doubles compute it, for a whole number [c > 0] held by a
    double.  Up to [2^53] the result is exact.  Above it the doubles are
    two or more apart and the result is rounded to the nearest one, a tie
    going to the even significand: below [2^54], where the doubles are
    the even numbers, [c - 1] lies half way between [c - 2] and [c], and
    [c / 2] is the significand of [c]; from [2^54] on [c] is the
    nearest. *)
Definition minus_one (c : Z) : Z :=
  if (c <=? two53)%Z then (c - 1)%Z
  else if (c <? 2 * two53)%Z && Z.odd (c / 2) then (c - 2)%Z
  else c.

End JsNumber.

(** The main process around the handlers: its window, if it has one, with
    the page's [window.__CREDITS__] (a whole number held by a double, when
    it is set), the
    view and the two screenshot queues. *)
Record Shell : Type := mkShell {
  has_window : bool;                 (* [deps.getMainWindow()] is not null *)
  destroyed : bool;                  (* [mainWindow.isDestroyed()] *)
  CREDITS : option Z;                (* [window.__CREDITS__] *)
  sent : list WinMsg;                (* [webContents.send], oldest first *)
  js_runs : nat;                     (* [executeJavaScript] calls so far *)
  view : string;                     (* [deps.getView()] *)
  screenshotQueue : list string;
  extraScreenshotQueue : list string;
  dep_calls : list DepCall           (* oldest first *)
}.

(** What the surroundings decide. *)
Record ShellHost : Type := mkShellHost {
  js_fault : nat -> option string;       (* the n-th [executeJavaScript] rejects *)
  has_helper : bool;                     (* [deps.processingHelper] is set *)
  process_fault : option string;         (* [processScreenshots] rejects *)
  delete_reply : string -> string + Reply  (* [deps.deleteScreenshot] *)
}.

Module Sh.

Definition t (A : Type) : Type := Eff.t Shell A.

Definition send (m : WinMsg) : t unit :=
  Eff.modify (fun s => mkShell (has_window s) (destroyed s) (CREDITS s)
    (sent s ++ [m]) (js_runs s) (view s) (screenshotQueue s)
    (extraScreenshotQueue s) (dep_calls s)).

Definition call (c : DepCall) : t unit :=
  Eff.modify (fun s => mkShell (has_window s) (destroyed s) (CREDITS s)
    (sent s) (js_runs s) (view s) (screenshotQueue s)
    (extraScreenshotQueue s) (dep_calls s ++ [c])).

Definition count_js : t nat :=
  fun s => (Return (js_runs s),
            mkShell (has_window s) (destroyed s) (CREDITS s) (sent s)
              (S (js_runs s)) (view s) (screenshotQueue s)
              (extraScreenshotQueue s) (dep_calls s)).

Definition set_credits (v : option Z) : t unit :=
  Eff.modify (fun s => mkShell (has_window s) (destroyed s) v (sent s)
    (js_runs s) (view s) (screenshotQueue s) (extraScreenshotQueue s)
    (dep_calls s)).

End Sh.

Section ShellHandlers.

Variable sh : ShellHost.

(** [mainWindow.webContents.executeJavaScript(`window.__CREDITS__ =
    ${credits}`)] *)
Definition js_set_credits (credits : Z) : Sh.t unit :=
  n <- Sh.count_js ;;
  match js_fault sh n with
  | Some e => Eff.throw e
  | None => Sh.set_credits (Some credits)
  end.

(** [mainWindow.webContents.executeJavaScript("window.__CREDITS__")] *)
Definition js_get_credits : Sh.t (option Z) :=
  n <- Sh.count_js ;;
  match js_fault sh n with
  | Some e => Eff.throw e
  | None => s <- Eff.get ;; Eff.ret (CREDITS s)
  end.

(** [ipcMain.handle("set-initial-credits", async (_event, credits) =>
    ...)] *)
Definition set_initial_credits (credits : Z) : Sh.t unit :=
  s <- Eff.get ;;
  if negb (has_window s) then Eff.ret tt
  else
    Eff.try_catch
      (js_set_credits credits ;;;
       Sh.send (CreditsUpdated credits))
      (fun error => Eff.throw error).

(** [ipcMain.handle("decrement-credits", async () => ...)] *)
Definition decrement_credits : Sh.t unit :=
  s <- Eff.get ;;
  if negb (has_window s) then Eff.ret tt
  else
    Eff.try_catch
      (currentCredits <- js_get_credits ;;
       match currentCredits with    (* [currentCredits > 0] *)
       | Some c =>
           if (0 <? c)%Z then
             let newCredits := JsNumber.minus_one c in
             js_set_credits newCredits ;;;
             Sh.send (CreditsUpdated newCredits)
           else Eff.ret tt
       | None => Eff.ret tt
       end)
      (fun error => Eff.ret tt).

(** [await deps.processingHelper?.processScreenshots()] *)
Definition processScreenshots : Sh.t unit :=
  if has_helper sh then
    Sh.call ProcessScreenshots ;;;
    match process_fault sh with
    | Some e => Eff.throw e
    | None => Eff.ret tt
    end
  else Eff.ret tt.

(** [if (mainWindow) mainWindow.webContents.send(API_KEY_INVALID)] *)
Definition notify_key_invalid : Sh.t unit :=
  s <- Eff.get ;;
  if has_window s then Sh.send ApiKeyInvalid else Eff.ret tt.

(** [ipcMain.handle("process-screenshots", async () => ...)] *)
Definition process_screenshots (cfg : Config) : Sh.t unit :=
  if negb (hasApiKey cfg) then notify_key_invalid
  else processScreenshots.

(** [ipcMain.handle("trigger-process-screenshots", async () => ...)] *)
Definition trigger_process_screenshots (cfg : Config) : Sh.t Reply :=
  Eff.try_catch
    (if negb (hasApiKey cfg) then
       notify_key_invalid ;;;
       Eff.ret (mkReply (Some false) (Some "API key required"))
     else
       processScreenshots ;;;
       Eff.ret (mkReply (Some true) None))
    (fun error =>
       Eff.ret (mkReply None (Some "Failed to process screenshots"))).

(** [deps.deleteScreenshot(path)] *)
Definition deleteScreenshot (path : string) : Sh.t Reply :=
  Sh.call (DeleteScreenshot path) ;;;
  match delete_reply sh path with
  | inl e => Eff.throw e
  | inr r => Eff.ret r
  end.

(** [ipcMain.handle("delete-last-screenshot", async () => ...)] *)
Definition delete_last_screenshot : Sh.t Reply :=
  Eff.try_catch
    (s <- Eff.get ;;
     let queue :=
       if String.eqb (view s) "queue"
       then screenshotQueue s
       else extraScreenshotQueue s in
     match last queue with
     | None =>
         Eff.ret (mkReply (Some false) (Some "No screenshots to delete"))
     | Some lastScreenshot =>
         result <- deleteScreenshot lastScreenshot ;;
         (if has_window s && negb (destroyed s)
          then Sh.send (ScreenshotDeleted lastScreenshot)
          else Eff.ret tt) ;;;
         Eff.ret result
     end)
    (fun error =>
       Eff.ret (mkReply (Some false) (Some "Failed to delete last screenshot"))).

End ShellHandlers.

(** [decrement-credits], [n] times in a row. *)
Fixpoint decrement_times (sh : ShellHost) (n : nat) : Sh.t unit :=
  match n with
  | O => Eff.ret tt
  | S n' => decrement_credits sh ;;; decrement_times sh n'
  end.

(** ** Reading a base64 payload back *)

Module Base64Inverse.

Fixpoint index_of (c : ascii) (s : string) : option N :=
  match s with
  | EmptyString => None
  | String d s' =>
      if Ascii.eqb c d then Some 0%N
      else option_map N.succ (index_of c s')
  end.

Definition undigit (c : ascii) : option N := index_of c Base64.alphabet.

Definition byte_of (n : N) : option Byte.byte := Byte.of_N n.

(** Four digits back to three bytes; a group that ends in padding is the
    last one. *)
Fixpoint decode (s : string) : option bytes :=
  match s with
  | EmptyString => Some []
  | String a (String b (String c (String d rest))) =>
      match undigit a, undigit b with
      | Some s1, Some s2 =>
          match byte_of (s1 * 4 + s2 / 16)%N with
          | Some x =>
              if Ascii.eqb d Base64.pad then
                match rest with
                | EmptyString =>
                    if Ascii.eqb c Base64.pad then Some [x]
                    else
                      match undigit c with
                      | Some s3 =>
                          match byte_of ((s2 mod 16) * 16 + s3 / 4)%N with
                          | Some y => Some [x; y]
                          | None => None
                          end
                      | None => None
                      end
                | _ => None
                end
              else
                match undigit c, undigit d with
                | Some s3, Some s4 =>
                    match byte_of ((s2 mod 16) * 16 + s3 / 4)%N,
                          byte_of ((s3 mod 4) * 64 + s4)%N,
                          decode rest with
                    | Some y, Some z, Some tl => Some (x :: y :: z :: tl)
                    | _, _, _ => None
                    end
                | _, _ => None
                end
          | None => None
          end
      | _, _ => None
      end
  | _ => None
  end.

End Base64Inverse.

(** Every code unit of the string is white space. *)
Fixpoint all_white (s : string) : bool :=
  match s with
  | EmptyString => true
  | String c s' => isWhiteSpace c && all_white s'
  end.

(** *** More sample hosts *)

(** A host whose FFmpeg reports an error. *)
Definition broken_ffmpeg_host : Host :=
  mkHost "/tmp" sample_clock (fun _ => None) (fun _ => None)
    (fun _ => None)
    (fun _ => FfError "ffmpeg exited with code 1" None)
    (fun _ => inr (spoken "Tell me about a time you led a team."))
    (fun _ => inr "Tell me about a time you led a team.").

(** A host whose providers refuse the key. *)
Definition refusing_host : Host :=
  mkHost "/tmp" sample_clock (fun _ => None) (fun _ => None)
    (fun _ => None)
    (fun _ => FfEnd wav_bytes)
    (fun _ => inl "401 Incorrect API key provided")
    (fun _ => inl "401 Incorrect API key provided").

(** A host that transcribes well and then fails to generate. *)
Definition half_host : Host :=
  mkHost "/tmp" sample_clock (fun _ => None) (fun _ => None)
    (fun _ => None)
    (fun _ => FfEnd wav_bytes)
    (fun r => match r with
              | ChatAudio _ _ _ _ _ _ =>
                  inr (spoken "Tell me about a time you led a team.")
              | _ => inl "429 You exceeded your current quota"
              end)
    (fun _ => inr "Tell me about a time you led a team.").

(** A host that will not let a temporary file be removed. *)
Definition sticky_host : Host :=
  mkHost "/tmp" sample_clock (fun _ => None) (fun _ => None)
    (fun _ => Some "EBUSY: resource busy or locked")
    (fun _ => FfEnd wav_bytes)
    (fun _ => inr (spoken "Tell me about a time you led a team."))
    (fun _ => inr "Tell me about a time you led a team.").

(** A host whose disk is full: a write creates the file and fails. *)
Definition full_disk_host : Host :=
  mkHost "/tmp" sample_clock
    (fun _ => Some ("ENOSPC: no space left on device", Some []))
    (fun _ => None) (fun _ => None)
    (fun _ => FfEnd wav_bytes)
    (fun _ => inr (spoken "Tell me about a time you led a team."))
    (fun _ => inr "Tell me about a time you led a team.").

(** Surroundings in which nothing fails, and a shell with a window. *)
Definition calm_shell : ShellHost :=
  mkShellHost (fun _ => None) true None
    (fun _ => inr (mkReply (Some true) None)).

Definition shell_with (credits : option Z) (queue extra : list string)
    (v : string) : Shell :=
  mkShell true false credits [] 0 v queue extra [].

(** ** The model at work *)

Example toLowerCase_mixed : toLowerCase "Recording.WebM" = "recording.webm".
Proof. reflexivity. Qed.

Example includes_webm : includes (toLowerCase "Recording.WebM") "webm" = true.
Proof. reflexivity. Qed.

Example endsWith_mp3 :
  endsWith "recording.mp3" ".mp3" = true /\ endsWith "mp3" ".mp3" = false.
Proof. split; reflexivity. Qed.

Example startsWith_openrouter :
  startsWith "sk-or-v1-abc" "sk-or-" = true
  /\ startsWith "sk-abc" "sk-or-" = false.
Proof. split; reflexivity. Qed.

Example trim_both_ends :
  trim (" " +:+ nl +:+ "Tell me. " +:+ nl) = "Tell me.".
Proof. reflexivity. Qed.

Example base64_padding :
  Base64.encode [Byte.x4d] = "TQ=="
  /\ Base64.encode [Byte.x4d; Byte.x61] = "TWE="
  /\ Base64.encode [Byte.x4d; Byte.x61; Byte.x6e] = "TWFu"
  /\ Base64.encode [Byte.xff; Byte.xfe; Byte.xfd; Byte.x00] = "//79AA==".
Proof. repeat split. Qed.

(** Record with a WebM-only browser, stop, generate, with an OpenRouter
    key: the recording is converted, transcribed and answered, the
    completion callback fires once, and no temporary file is left. *)
Example pipeline_scenario :
  let s1 := snd (startRecording webm_browser fresh_sys) in
  let s2 := snd (stopRecording webm_browser s1) in
  let r := processAudio sample_host openrouter_cfg s2 in
  fst r = Return Finished
  /\ rtrace (snd r) =
     [webm_notice;
      Toast "Recording" "Audio recording started" "success";
      Toast "Recording" "Audio recording stopped" "neutral";
      processing_notice;
      InvokeTranscribe webm_bytes "recording.webm";
      InvokeGenerate "Tell me about a time you led a team.";
      TranscriptionComplete "Tell me about a time you led a team."
        "Tell me about a time you led a team.";
      Toast "Success" "Audio processed and answer generated!" "success"]
  /\ requests (trace (main (snd r))) =
     [audio_request "sk-or-v1-abc" wav_bytes "wav";
      generation_request openrouter_cfg "sk-or-v1-abc"
        "Tell me about a time you led a team."]
  /\ files (main (snd r)) = ∅
  /\ live_tracks (snd r) = []
  /\ isProcessing (snd r) = false.
Proof. vm_compute. repeat split. Qed.

(** ** Reasoning about runs *)

Lemma requests_app t1 t2 :
  requests (t1 ++ t2) = (requests t1 ++ requests t2)%list.
Proof. apply omap_app. Qed.

Section EmitsOnly.
Context {A B : Type} (Q : Event -> Prop).

Lemma emits_ret (a : A) : emits_only Q (IO.ret a).
Proof. intros w. exists []. simpl. by rewrite app_nil_r. Qed.

Lemma emits_throw e : emits_only Q (IO.throw (A:=A) e).
Proof. intros w. exists []. simpl. by rewrite app_nil_r. Qed.

Lemma emits_bind (m : IO.t A) (k : A -> IO.t B) :
  emits_only Q m -> (forall a, emits_only Q (k a)) -> emits_only Q (Eff.bind m k).
Proof.
  intros Hm Hk w. unfold Eff.bind.
  destruct (Hm w) as (e1 & E1 & F1).
  destruct (m w) as [[a|e] w1]; simpl in *.
  - destruct (Hk a w1) as (e2 & E2 & F2).
    exists (e1 ++ e2). rewrite E2, E1, <- app_assoc. split; [done|].
    by apply Forall_app.
  - by exists e1.
Qed.

Lemma emits_try_catch (m : IO.t A) (k : string -> IO.t A) :
  emits_only Q m -> (forall e, emits_only Q (k e)) -> emits_only Q (IO.try_catch m k).
Proof.
  intros Hm Hk w. unfold IO.try_catch, Eff.try_catch.
  destruct (Hm w) as (e1 & E1 & F1).
  destruct (m w) as [[a|e] w1]; simpl in *.
  - by exists e1.
  - destruct (Hk e w1) as (e2 & E2 & F2).
    exists (e1 ++ e2). rewrite E2, E1, <- app_assoc. split; [done|].
    by apply Forall_app.
Qed.

Lemma emits_try_finally (m : IO.t A) (c : IO.t unit) :
  emits_only Q m -> emits_only Q c -> emits_only Q (IO.try_finally m c).
Proof.
  intros Hm Hc w. unfold IO.try_finally, Eff.try_finally.
  destruct (Hm w) as (e1 & E1 & F1).
  destruct (m w) as [r w1]; simpl in *.
  destruct (Hc w1) as (e2 & E2 & F2).
  exists (e1 ++ e2).
  destruct (c w1) as [[[]|e] w2]; simpl in *;
    (rewrite E2, E1, <- app_assoc; split; [done|]; by apply Forall_app).
Qed.

End EmitsOnly.

Lemma emits_emit Q e : Q e -> emits_only Q (IO.emit e).
Proof. intros He w. exists [e]. simpl. split; [done|]. by constructor. Qed.

Lemma emits_get_files Q : emits_only Q IO.get_files.
Proof. intros w. exists []. simpl. by rewrite app_nil_r. Qed.

Lemma emits_set_files Q fs : emits_only Q (IO.set_files fs).
Proof. intros w. exists []. simpl. by rewrite app_nil_r. Qed.

Lemma emits_Date_now Q h : emits_only Q (Date_now h).
Proof. intros w. exists []. simpl. by rewrite app_nil_r. Qed.

Ltac emits_step :=
  first
    [ apply emits_bind
    | apply emits_try_catch
    | apply emits_try_finally
    | apply emits_ret
    | apply emits_throw
    | apply emits_get_files
    | apply emits_set_files
    | apply emits_Date_now
    | apply emits_emit
    | progress intros
    | match goal with
      | |- emits_only _ (match ?x with _ => _ end) => destruct x
      end ].

(** A conversion stays on the machine. *)
Lemma convert_local h buf : emits_only local (convertWebMToWAV h buf).
Proof.
  unfold convertWebMToWAV, ffmpeg_save, try_unlink, unlinkSync,
    readFileSync, writeFileSync.
  repeat emits_step; exact I.
Qed.

Lemma requests_local evs : Forall local evs -> requests evs = [].
Proof.
  induction 1 as [|e evs He _ IH]; [done|].
  destruct e; simpl in *; done.
Qed.

Lemma convert_sends_nothing h buf w :
  requests (trace (snd (convertWebMToWAV h buf w))) = requests (trace w).
Proof.
  destruct (convert_local h buf w) as (evs & -> & Hl).
  by rewrite requests_app, (requests_local _ Hl), app_nil_r.
Qed.

(** *** Paths *)

Lemma startsWith_app d x y : startsWith (d +:+ x) (d +:+ y) = startsWith x y.
Proof.
  induction d as [|c d IH]; simpl; [done|].
  by rewrite Ascii.eqb_refl.
Qed.

Lemma append_cancel d x y : d +:+ x = d +:+ y -> x = y.
Proof. induction d as [|c d IH]; simpl; [done|]. intros [= H]. auto. Qed.

Lemma input_is_conversion_input h now buf :
  is_conversion_input h (FsWrite (inputPath_of h now) buf) = true.
Proof.
  unfold is_conversion_input, inputPath_of, path_join.
  rewrite startsWith_app. reflexivity.
Qed.

Lemma temp_is_not_conversion_input h now fn buf :
  is_conversion_input h (FsWrite (tempFilePath_of h now fn) buf) = false.
Proof.
  unfold is_conversion_input, tempFilePath_of, path_join.
  rewrite startsWith_app. reflexivity.
Qed.

Lemma input_ne_output h t1 t2 : inputPath_of h t1 <> outputPath_of h t2.
Proof.
  unfold inputPath_of, outputPath_of, path_join.
  intros H%append_cancel. discriminate.
Qed.

Arguments String.append : simpl never.
Arguments inputPath_of : simpl never.
Arguments outputPath_of : simpl never.
Arguments tempFilePath_of : simpl never.
Arguments try_unlink : simpl never.
Arguments writeFileSync : simpl never.
Arguments readFileSync : simpl never.
Arguments convertWebMToWAV : simpl never.

Ltac io_unfold :=
  unfold IO.try_catch, IO.try_finally, IO.throw, IO.ret, IO.emit, IO.get_files, IO.set_files,
    Eff.try_catch, Eff.try_finally, Eff.bind, Eff.throw, Eff.ret, Eff.modify, Eff.get.

Lemma try_catch_rethrow {A} (m : IO.t A) w :
  IO.try_catch m (fun error => IO.throw error) w = m w.
Proof. io_unfold. by destruct (m w) as [[a|e] w']. Qed.

Section Runs.
Variable h : Host.

Lemma writeFileSync_ok p d w :
  write_fault h p = None ->
  writeFileSync h p d w =
  (Return tt, mkWorld (<[p:=d]> (files w)) (trace w ++ [FsWrite p d]) (clock_reads w)).
Proof. intros H. unfold writeFileSync. io_unfold. simpl. by rewrite H. Qed.

Lemma writeFileSync_fail p d w e remains :
  write_fault h p = Some (e, remains) ->
  writeFileSync h p d w =
  (Throw e, mkWorld (left_by remains p (files w)) (trace w ++ [FsWrite p d])
              (clock_reads w)).
Proof.
  intros H. unfold writeFileSync. io_unfold. simpl. rewrite H.
  by destruct remains.
Qed.

Lemma try_unlink_run p w :
  try_unlink h p w =
  (Return tt, mkWorld (unlinked h p (files w)) (trace w ++ [FsUnlink p])
                (clock_reads w)).
Proof.
  unfold try_unlink, unlinkSync, unlinked. io_unfold. simpl.
  destruct (unlink_fault h p); simpl; [done|].
  destruct (files w !! p) eqn:E; simpl; [done|].
  by rewrite delete_id.
Qed.

Lemma readFileSync_ok p w d :
  read_fault h p = None -> files w !! p = Some d ->
  readFileSync h p w =
  (Return d, mkWorld (files w) (trace w ++ [FsRead p]) (clock_reads w)).
Proof. intros H1 H2. unfold readFileSync. io_unfold. simpl. rewrite H1. simpl. by rewrite H2. Qed.

Lemma readFileSync_fault p w e :
  read_fault h p = Some e ->
  readFileSync h p w =
  (Throw e, mkWorld (files w) (trace w ++ [FsRead p]) (clock_reads w)).
Proof. intros H1. unfold readFileSync. io_unfold. simpl. by rewrite H1. Qed.

Lemma bind_Date_now {A} (k : N -> IO.t A) w :
  Eff.bind (Date_now h) k w =
  k (date_now h (clock_reads w))
    (mkWorld (files w) (trace w) (S (clock_reads w))).
Proof. reflexivity. Qed.

Lemma unlinked_lookup_ne p i fs :
  i <> p -> unlinked h p fs !! i = fs !! i.
Proof.
  intros Hi. unfold unlinked. destruct (unlink_fault h p); [done|].
  by rewrite lookup_delete_ne.
Qed.

Lemma unlinked_lookup_eq p fs :
  unlink_fault h p = None -> unlinked h p fs !! p = None.
Proof. intros Hu. unfold unlinked. rewrite Hu. apply lookup_delete_eq. Qed.

(** Cleaning up after a conversion, whatever it left at its two paths. *)
Lemma cleanup_tidied (p q : string) (fs X : gmap string bytes) :
  p <> q ->
  (forall i, i <> p -> i <> q -> X !! i = fs !! i) ->
  tidied h p q fs (unlinked h q (unlinked h p X)).
Proof.
  intros Hpq HX. split; [|split].
  - intros i Hp Hq. rewrite !unlinked_lookup_ne by done. by apply HX.
  - intros Hu. rewrite unlinked_lookup_ne by done.
    by apply unlinked_lookup_eq.
  - intros Hu. by apply unlinked_lookup_eq.
Qed.

Ltac convert_start :=
  unfold convertWebMToWAV; rewrite !bind_Date_now; simpl clock_reads; io_unfold.

Lemma convert_run_write_fault buf w e remains :
  let p := inputPath_of h (date_now h (clock_reads w)) in
  let q := outputPath_of h (date_now h (S (clock_reads w))) in
  write_fault h p = Some (e, remains) ->
  convertWebMToWAV h buf w =
  (Throw ("WebM to WAV conversion setup failed: " +:+ e),
   mkWorld (unlinked h q (unlinked h p (left_by remains p (files w))))
     (trace w ++ [FsWrite p buf; FsUnlink p; FsUnlink q])
     (S (S (clock_reads w)))).
Proof.
  intros p q Hw. convert_start.
  rewrite (writeFileSync_fail _ _ _ _ _ Hw). rewrite !try_unlink_run. simpl.
  by rewrite <- !app_assoc.
Qed.

Lemma convert_run_read_fault buf w out e :
  let p := inputPath_of h (date_now h (clock_reads w)) in
  let q := outputPath_of h (date_now h (S (clock_reads w))) in
  write_fault h p = None ->
  ffmpeg_run h (Some buf) = FfEnd out ->
  read_fault h q = Some e ->
  convertWebMToWAV h buf w =
  (Throw ("Failed to read converted WAV file: " +:+ e),
   mkWorld (<[q:=out]> (<[p:=buf]> (files w)))
     (trace w ++ [FsWrite p buf; FfmpegRun p q; FsRead q])
     (S (S (clock_reads w)))).
Proof.
  intros p q Hw Hf Hr. convert_start.
  rewrite (writeFileSync_ok _ _ _ Hw).
  unfold ffmpeg_save. io_unfold. simpl. rewrite lookup_insert_eq, Hf. simpl.
  rewrite (readFileSync_fault _ _ _ Hr). simpl.
  by rewrite <- !app_assoc.
Qed.

Lemma convert_run_ok buf w out :
  let p := inputPath_of h (date_now h (clock_reads w)) in
  let q := outputPath_of h (date_now h (S (clock_reads w))) in
  write_fault h p = None ->
  ffmpeg_run h (Some buf) = FfEnd out ->
  read_fault h q = None ->
  convertWebMToWAV h buf w =
  (Return out,
   mkWorld (unlinked h q (unlinked h p (<[q:=out]> (<[p:=buf]> (files w)))))
     (trace w ++ [FsWrite p buf; FfmpegRun p q; FsRead q; FsUnlink p; FsUnlink q])
     (S (S (clock_reads w)))).
Proof.
  intros p q Hw Hf Hr. convert_start.
  rewrite (writeFileSync_ok _ _ _ Hw).
  unfold ffmpeg_save. io_unfold. simpl. rewrite lookup_insert_eq, Hf. simpl.
  erewrite readFileSync_ok; [|done|simpl; apply lookup_insert_eq]. simpl.
  rewrite !try_unlink_run. simpl.
  by rewrite <- !app_assoc.
Qed.

Lemma convert_run_ffmpeg_error buf w e partial :
  let p := inputPath_of h (date_now h (clock_reads w)) in
  let q := outputPath_of h (date_now h (S (clock_reads w))) in
  write_fault h p = None ->
  ffmpeg_run h (Some buf) = FfError e partial ->
  convertWebMToWAV h buf w =
  (Throw ("FFmpeg conversion failed: " +:+ e),
   mkWorld (unlinked h q (unlinked h p
              (left_by partial q (<[p:=buf]> (files w)))))
     (trace w ++ [FsWrite p buf; FfmpegRun p q; FsUnlink p; FsUnlink q])
     (S (S (clock_reads w)))).
Proof.
  intros p q Hw Hf. convert_start.
  rewrite (writeFileSync_ok _ _ _ Hw).
  unfold ffmpeg_save. io_unfold. simpl. rewrite lookup_insert_eq, Hf.
  destruct partial as [o|]; simpl; rewrite !try_unlink_run; simpl;
    by rewrite <- !app_assoc.
Qed.

Lemma convert_run_ffmpeg_throw buf w e :
  let p := inputPath_of h (date_now h (clock_reads w)) in
  let q := outputPath_of h (date_now h (S (clock_reads w))) in
  write_fault h p = None ->
  ffmpeg_run h (Some buf) = FfThrow e ->
  convertWebMToWAV h buf w =
  (Throw ("WebM to WAV conversion setup failed: " +:+ e),
   mkWorld (unlinked h q (unlinked h p (<[p:=buf]> (files w))))
     (trace w ++ [FsWrite p buf; FsUnlink p; FsUnlink q])
     (S (S (clock_reads w)))).
Proof.
  intros p q Hw Hf. convert_start.
  rewrite (writeFileSync_ok _ _ _ Hw).
  unfold ffmpeg_save. io_unfold. simpl. rewrite lookup_insert_eq, Hf. simpl.
  rewrite !try_unlink_run. simpl.
  by rewrite <- !app_assoc.
Qed.

Ltac other_paths :=
  intros i Hip Hiq; unfold left_by;
  repeat case_match; rewrite ?lookup_insert_ne by done; done.

(** The three ways a conversion can go. *)
Lemma convert_cases buf w :
  let p := inputPath_of h (date_now h (clock_reads w)) in
  let q := outputPath_of h (date_now h (S (clock_reads w))) in
  let clk := S (S (clock_reads w)) in
  (exists e evs fs',
      convertWebMToWAV h buf w =
      (Throw e, mkWorld fs' (trace w ++ FsWrite p buf :: evs) clk)
      /\ Forall local evs
      /\ tidied h p q (files w) fs')
  \/ (exists out fs',
      ffmpeg_run h (Some buf) = FfEnd out /\
      convertWebMToWAV h buf w =
      (Return out, mkWorld fs'
         (trace w ++ [FsWrite p buf; FfmpegRun p q; FsRead q;
                      FsUnlink p; FsUnlink q]) clk)
      /\ tidied h p q (files w) fs')
  \/ (exists out e,
      ffmpeg_run h (Some buf) = FfEnd out /\ read_fault h q = Some e /\
      convertWebMToWAV h buf w =
      (Throw ("Failed to read converted WAV file: " +:+ e),
       mkWorld (<[q:=out]> (<[p:=buf]> (files w)))
         (trace w ++ [FsWrite p buf; FfmpegRun p q; FsRead q]) clk)).
Proof.
  intros p q clk.
  assert (p <> q) as Hpq by apply input_ne_output.
  destruct (write_fault h p) as [[e remains]|] eqn:Hw.
  { left. eexists _, _, _. split; [by apply convert_run_write_fault|].
    split; [repeat constructor|]. apply cleanup_tidied; [done|].
    other_paths. }
  destruct (ffmpeg_run h (Some buf)) as [out|e partial|e] eqn:Hf.
  - destruct (read_fault h q) as [e|] eqn:Hr.
    + right; right. exists out, e. split; [done|]. split; [done|].
      by apply convert_run_read_fault.
    + right; left. eexists out, _. split; [done|].
      split; [by apply convert_run_ok|].
      apply cleanup_tidied; [done|]. other_paths.
  - left. eexists _, _, _. split; [by eapply convert_run_ffmpeg_error|].
    split; [repeat constructor|]. apply cleanup_tidied; [done|].
    other_paths.
  - left. eexists _, _, _. split; [by eapply convert_run_ffmpeg_throw|].
    split; [repeat constructor|]. apply cleanup_tidied; [done|].
    other_paths.
Qed.

Lemma convert_returns_ffmpeg_output buf w out :
  fst (convertWebMToWAV h buf w) = Return out ->
  ffmpeg_run h (Some buf) = FfEnd out.
Proof.
  destruct (convert_cases buf w)
    as [(e & evs & fs1 & -> & _)|[(o & fs1 & Hf & -> & _)|(o & e & Hf & _ & ->)]];
    simpl; intros; by simplify_eq.
Qed.

Lemma convert_first_event buf w :
  exists rest,
    trace (snd (convertWebMToWAV h buf w)) =
    trace w ++ FsWrite (inputPath_of h (date_now h (clock_reads w))) buf :: rest.
Proof.
  destruct (convert_cases buf w)
    as [(e & evs & fs1 & -> & _)|[(o & fs1 & Hf & -> & _)|(o & e & Hf & _ & ->)]];
    simpl; eauto.
Qed.

(** *** The handlers *)

Lemma truthy_nonempty key : key <> "" -> truthy key = true.
Proof. by destruct key. Qed.

Lemma transcribe_audio_configured cfg key buf fn w :
  configured cfg key ->
  transcribe_audio h cfg buf fn w =
  if startsWith key "sk-or-"
  then transcribe_openrouter h key buf (includes (toLowerCase fn) "webm")
         (declared_format fn) w
  else transcribe_whisper h key buf fn w.
Proof.
  intros (Hk & Ha & Hne). unfold transcribe_audio.
  rewrite try_catch_rethrow, Hk, Ha, (truthy_nonempty _ Hne).
  cbn [negb]. by destruct (startsWith key "sk-or-").
Qed.

Lemma transcribe_audio_rejected cfg buf fn w :
  (forall key, ~ configured cfg key) ->
  exists e, transcribe_audio h cfg buf fn w = (Throw e, w).
Proof.
  intros Hn. unfold transcribe_audio. rewrite try_catch_rethrow.
  destruct (hasApiKey cfg) eqn:Hk; simpl; [|by eexists].
  destruct (apiKey cfg) as [key|] eqn:Ha; [|by eexists].
  destruct key as [|c key]; simpl; [by eexists|].
  destruct (Hn (String c key)). by repeat split.
Qed.

Lemma openrouter_plain key buf fmt w :
  transcribe_openrouter h key buf false fmt w =
  (match chat_reply h (audio_request key buf fmt) with
   | inl e => Throw e
   | inr choices => Return (mkTranscription (orElse (first_content choices) ""))
   end,
   mkWorld (files w) (trace w ++ [Net (audio_request key buf fmt)])
     (clock_reads w)).
Proof.
  unfold transcribe_openrouter, chat_create, audio_request. io_unfold. simpl.
  by destruct (chat_reply h _).
Qed.

Lemma openrouter_webm key buf fmt w :
  transcribe_openrouter h key buf true fmt w =
  match convertWebMToWAV h buf w with
  | (Return wav, wc) =>
      (match chat_reply h (audio_request key wav "wav") with
       | inl e => Throw e
       | inr choices =>
           Return (mkTranscription (orElse (first_content choices) ""))
       end,
       mkWorld (files wc) (trace wc ++ [Net (audio_request key wav "wav")])
         (clock_reads wc))
  | (Throw e, wc) =>
      (Throw ("Failed to convert WebM audio to WAV format: " +:+ e
              +:+ ". Please ensure FFmpeg is properly installed."), wc)
  end.
Proof.
  unfold transcribe_openrouter, chat_create, audio_request. io_unfold.
  destruct (convertWebMToWAV h buf w) as [[wav|e] wc]; simpl; [|done].
  by destruct (chat_reply h _).
Qed.

Lemma whisper_run key buf fn w :
  let p := tempFilePath_of h (date_now h (clock_reads w)) fn in
  let r := WhisperUpload key p buf "whisper-1" "en" in
  transcribe_whisper h key buf fn w =
  match write_fault h p with
  | Some (e, remains) =>
      (Throw e, mkWorld (left_by remains p (files w))
                  (trace w ++ [FsWrite p buf]) (S (clock_reads w)))
  | None =>
      (match whisper_reply h r with
       | inl e => Throw e
       | inr transcript => Return (mkTranscription transcript)
       end,
       mkWorld (unlinked h p (<[p:=buf]> (files w)))
         (trace w ++ [FsWrite p buf; Net r; FsUnlink p]) (S (clock_reads w)))
  end.
Proof.
  intros p r. unfold transcribe_whisper. rewrite bind_Date_now. fold p.
  io_unfold.
  destruct (write_fault h p) as [[e remains]|] eqn:Hw.
  - by rewrite (writeFileSync_fail _ _ _ _ _ Hw).
  - rewrite (writeFileSync_ok _ _ _ Hw).
    unfold whisper_create. io_unfold. simpl. rewrite lookup_insert_eq. simpl.
    fold r.
    destruct (whisper_reply h r); simpl; rewrite try_unlink_run; simpl;
      by rewrite <- !app_assoc.
Qed.

Lemma generate_configured cfg key question w :
  configured cfg key ->
  generate_behavioral_answer h cfg question w =
  (match chat_reply h (generation_request cfg key question) with
   | inl e => Throw e
   | inr choices =>
       Return (mkAnswer (orElse (first_content choices) fallback_answer))
   end,
   mkWorld (files w)
     (trace w ++ [Net (generation_request cfg key question)])
     (clock_reads w)).
Proof.
  intros (Hk & Ha & Hne). unfold generate_behavioral_answer.
  rewrite try_catch_rethrow, Hk, Ha, (truthy_nonempty _ Hne).
  cbn [negb]. unfold generation_request, chat_create. io_unfold.
  destruct (startsWith key "sk-or-"); cbn [fst snd];
    by destruct (chat_reply h _).
Qed.

Lemma declared_format_cases fn :
  declared_format fn = "mp3" \/ declared_format fn = "wav".
Proof. unfold declared_format. destruct (endsWith _ _); auto. Qed.

(** What the handler adds to the trace on the OpenRouter path when the
    file name does not ask for a conversion. *)
Lemma openrouter_plain_events key buf fmt w :
  trace (snd (transcribe_openrouter h key buf false fmt w)) =
  trace w ++ [Net (audio_request key buf fmt)].
Proof. by rewrite openrouter_plain. Qed.

(** ... and when it does: the events of the conversion and, if it
    succeeded, one request with FFmpeg's output tagged [wav]. *)
Lemma openrouter_webm_events key buf fmt w :
  exists evs,
    trace (snd (transcribe_openrouter h key buf true fmt w)) = trace w ++ evs
    /\ conversion_triggered h evs = true
    /\ requests evs =
       match fst (convertWebMToWAV h buf w) with
       | Return wav => [audio_request key wav "wav"]
       | Throw _ => []
       end.
Proof.
  rewrite openrouter_webm.
  destruct (convert_cases buf w)
    as [(e & evs & fs1 & -> & Hl & _)|[(o & fs1 & Hf & -> & _)|(o & e & Hf & _ & ->)]];
    cbn [fst snd trace].
  - eexists. split; [done|]. split.
    + unfold conversion_triggered. cbn [existsb].
      by rewrite input_is_conversion_input.
    + cbn. by apply requests_local.
  - eexists. split; [by rewrite <- app_assoc|]. split.
    + unfold conversion_triggered. cbn [app existsb].
      by rewrite input_is_conversion_input.
    + reflexivity.
  - eexists. split; [done|]. split.
    + unfold conversion_triggered. cbn [existsb].
      by rewrite input_is_conversion_input.
    + reflexivity.
Qed.

Lemma whisper_events key buf fn w :
  let p := tempFilePath_of h (date_now h (clock_reads w)) fn in
  let r := WhisperUpload key p buf "whisper-1" "en" in
  exists evs,
    trace (snd (transcribe_whisper h key buf fn w)) = trace w ++ evs
    /\ conversion_triggered h evs = false
    /\ existsb is_ffmpeg_run evs = false
    /\ requests evs =
       match write_fault h p with None => [r] | Some _ => [] end.
Proof.
  intros p r. rewrite whisper_run. fold p r.
  destruct (write_fault h p) as [[e remains]|]; cbn [snd trace]; eexists;
    (split; [done|]);
    unfold conversion_triggered; cbn [existsb is_ffmpeg_run];
    unfold p; rewrite temp_is_not_conversion_input; done.
Qed.

End Runs.

(** ** The transcription handler *)

(** C6. With a configured credential, the ["transcribe-audio"] handler
    picks its protocol from the shape of the key alone, and uses it.  For a
    key that starts with [sk-or-] the requests of the run are exactly the
    multimodal chat request for the recording: the buffer itself in base64,
    tagged with the format read off the file name, or, for a WebM file
    name, FFmpeg's WAV output tagged [wav] (no request at all when that
    conversion fails); the tag is always [wav] or [mp3].  For any other key
    the requests of the run are exactly the Whisper upload of the buffer
    from its temporary file, with model [whisper-1] and language [en] (no
    request at all when the temporary file cannot be written).  So the
    provider's create method is called at most once, exactly once when the
    handler returns a transcript, and never on the other protocol. *)
Theorem protocol_selected_by_key_shape h cfg key buf fn w :
  configured cfg key ->
  exists evs,
    trace (snd (transcribe_audio h cfg buf fn w)) = trace w ++ evs
    /\ length (requests evs) <= 1
    /\ (forall res, fst (transcribe_audio h cfg buf fn w) = Return res ->
        length (requests evs) = 1)
    /\ if startsWith key "sk-or-"
       then requests evs =
            (if includes (toLowerCase fn) "webm"
             then match fst (convertWebMToWAV h buf w) with
                  | Return wav => [audio_request key wav "wav"]
                  | Throw _ => []
                  end
             else [audio_request key buf (declared_format fn)])
            /\ Forall (fun r => exists payload format,
                         r = audio_request key payload format
                         /\ (format = "wav" \/ format = "mp3"))
                 (requests evs)
       else requests evs =
            (let p := tempFilePath_of h (date_now h (clock_reads w)) fn in
             match write_fault h p with
             | None => [WhisperUpload key p buf "whisper-1" "en"]
             | Some _ => []
             end)
            /\ Forall (fun r => exists p data,
                         r = WhisperUpload key p data "whisper-1" "en")
                 (requests evs).
Proof.
  intros Hc. rewrite (transcribe_audio_configured h cfg key buf fn w Hc).
  destruct (startsWith key "sk-or-").
  - destruct (includes (toLowerCase fn) "webm").
    + destruct (openrouter_webm_events h key buf (declared_format fn) w)
        as (evs & Ht & _ & Hr).
      exists evs. split; [done|]. rewrite Hr, openrouter_webm.
      destruct (convertWebMToWAV h buf w) as [[wav|e] wc]; cbn [fst length].
      * split; [lia|]. split; [done|]. split; [done|].
        repeat constructor. eauto.
      * split; [lia|]. split; [done|]. split; [done|]. constructor.
    + rewrite openrouter_plain. cbn [snd trace fst].
      eexists. split; [done|]. cbn [requests omap length].
      split; [cbn; lia|]. split; [done|]. split; [done|].
      repeat constructor. eexists _, _. split; [done|].
      destruct (declared_format_cases fn) as [->| ->]; auto.
  - destruct (whisper_events h key buf fn w) as (evs & Ht & _ & _ & Hr).
    exists evs. split; [done|]. rewrite Hr, whisper_run. cbv zeta.
    destruct (write_fault h _) as [[? ?]|]; cbn [fst length].
    + split; [lia|]. split; [done|]. split; [done|]. constructor.
    + split; [lia|]. split; [done|]. split; [done|].
      repeat constructor. eauto.
Qed.

Lemma protocol_selected_by_key_shape_witness :
  configured openrouter_cfg "sk-or-v1-abc"
  /\ exists evs,
      trace (snd (transcribe_audio sample_host openrouter_cfg wav_bytes
                    "recording.wav" fresh_world)) = trace fresh_world ++ evs
      /\ length (requests evs) <= 1
      /\ (forall res,
            fst (transcribe_audio sample_host openrouter_cfg wav_bytes
                   "recording.wav" fresh_world) = Return res ->
            length (requests evs) = 1)
      /\ requests evs = [audio_request "sk-or-v1-abc" wav_bytes "wav"]
      /\ Forall (fun r => exists payload format,
                   r = audio_request "sk-or-v1-abc" payload format
                   /\ (format = "wav" \/ format = "mp3"))
           (requests evs).
Proof.
  split; [repeat split; discriminate|].
  apply (protocol_selected_by_key_shape sample_host openrouter_cfg
           "sk-or-v1-abc" wav_bytes "recording.wav" fresh_world).
  repeat split; discriminate.
Defined.

(** C3, as the code has it.  For a recording whose file name says WebM and
    a configured credential: on the OpenRouter path the only request that
    can leave carries FFmpeg's WAV output for the buffer, tagged [wav], and
    nothing is sent when the conversion fails; on the Whisper path no
    conversion is run and the captured buffer is uploaded as it is, from a
    temporary file named after the given file name. *)
Theorem webm_recording_submission h cfg key buf fn w :
  configured cfg key ->
  includes (toLowerCase fn) "webm" = true ->
  exists evs,
    trace (snd (transcribe_audio h cfg buf fn w)) = trace w ++ evs
    /\ if startsWith key "sk-or-"
       then requests evs =
            match fst (convertWebMToWAV h buf w) with
            | Return wav => [audio_request key wav "wav"]
            | Throw _ => []
            end
            /\ (forall wav, fst (convertWebMToWAV h buf w) = Return wav ->
                ffmpeg_run h (Some buf) = FfEnd wav)
       else conversion_triggered h evs = false
            /\ existsb is_ffmpeg_run evs = false
            /\ requests evs =
               let p := tempFilePath_of h (date_now h (clock_reads w)) fn in
               match write_fault h p with
               | None => [WhisperUpload key p buf "whisper-1" "en"]
               | Some _ => []
               end.
Proof.
  intros Hc Hweb. rewrite (transcribe_audio_configured h cfg key buf fn w Hc).
  rewrite Hweb. destruct (startsWith key "sk-or-").
  - destruct (openrouter_webm_events h key buf (declared_format fn) w)
      as (evs & Ht & _ & Hr).
    exists evs. repeat split; [done|done|].
    intros wav. apply convert_returns_ffmpeg_output.
  - destruct (whisper_events h key buf fn w) as (evs & Ht & Hn & Hf & Hr).
    by exists evs.
Qed.

Lemma webm_recording_submission_witness :
  configured openrouter_cfg "sk-or-v1-abc"
  /\ includes (toLowerCase "recording.webm") "webm" = true
  /\ exists evs,
      trace (snd (transcribe_audio sample_host openrouter_cfg webm_bytes
                    "recording.webm" fresh_world)) = trace fresh_world ++ evs
      /\ if startsWith "sk-or-v1-abc" "sk-or-"
         then requests evs =
              match fst (convertWebMToWAV sample_host webm_bytes fresh_world) with
              | Return wav => [audio_request "sk-or-v1-abc" wav "wav"]
              | Throw _ => []
              end
              /\ (forall wav,
                    fst (convertWebMToWAV sample_host webm_bytes fresh_world)
                    = Return wav ->
                    ffmpeg_run sample_host (Some webm_bytes) = FfEnd wav)
         else conversion_triggered sample_host evs = false
              /\ existsb is_ffmpeg_run evs = false
              /\ requests evs =
                 let p := tempFilePath_of sample_host
                            (date_now sample_host (clock_reads fresh_world))
                            "recording.webm" in
                 match write_fault sample_host p with
                 | None => [WhisperUpload "sk-or-v1-abc" p webm_bytes
                              "whisper-1" "en"]
                 | Some _ => []
                 end.
Proof.
  split; [repeat split; discriminate|]. split; [reflexivity|].
  apply (webm_recording_submission sample_host openrouter_cfg "sk-or-v1-abc"
           webm_bytes "recording.webm" fresh_world).
  - repeat split; discriminate.
  - reflexivity.
Defined.

(** C3 as stated fails on the Whisper path: with an OpenAI key the WebM
    buffer is uploaded as it was captured, under a [.webm] file name, and
    FFmpeg is never run. *)
Lemma webm_payload_reaches_whisper :
  let r := transcribe_audio sample_host openai_cfg webm_bytes
             "recording.webm" fresh_world in
  includes (toLowerCase "recording.webm") "webm" = true
  /\ fst r = Return (mkTranscription "Tell me about a time you led a team.")
  /\ requests (trace (snd r)) =
     [WhisperUpload "sk-abc" "/tmp/temp_audio_1700000000000_recording.webm"
        webm_bytes "whisper-1" "en"]
  /\ existsb is_ffmpeg_run (trace (snd r)) = false.
Proof. vm_compute. repeat split. Qed.

(** C7. A recording saved as [recording.mp3] or [recording.wav] is not
    converted: no conversion input is written, FFmpeg is not run, and what
    is submitted is the captured buffer itself, in base64 with the tag of
    its extension on the OpenRouter path, and as the uploaded file on the
    Whisper path. *)
Theorem supported_recording_sent_unchanged h cfg key buf ext w :
  configured cfg key ->
  ext = "mp3" \/ ext = "wav" ->
  exists evs,
    trace (snd (transcribe_audio h cfg buf ("recording." +:+ ext) w))
    = trace w ++ evs
    /\ conversion_triggered h evs = false
    /\ existsb is_ffmpeg_run evs = false
    /\ requests evs =
       if startsWith key "sk-or-"
       then [audio_request key buf ext]
       else
         let p := tempFilePath_of h (date_now h (clock_reads w))
                    ("recording." +:+ ext) in
         match write_fault h p with
         | None => [WhisperUpload key p buf "whisper-1" "en"]
         | Some _ => []
         end.
Proof.
  intros Hc Hext.
  rewrite (transcribe_audio_configured h cfg key buf _ w Hc).
  destruct (startsWith key "sk-or-").
  - assert (includes (toLowerCase ("recording." +:+ ext)) "webm" = false
            /\ declared_format ("recording." +:+ ext) = ext) as [-> ->]
      by (destruct Hext as [-> | ->]; split; reflexivity).
    rewrite openrouter_plain_events. by eexists.
  - destruct (whisper_events h key buf ("recording." +:+ ext) w)
      as (evs & Ht & Hn & Hf & Hr).
    by exists evs.
Qed.

Lemma supported_recording_sent_unchanged_witness :
  configured openrouter_cfg "sk-or-v1-abc"
  /\ ("mp3" = "mp3" \/ "mp3" = "wav")
  /\ exists evs,
      trace (snd (transcribe_audio sample_host openrouter_cfg wav_bytes
                    ("recording." +:+ "mp3") fresh_world))
      = trace fresh_world ++ evs
      /\ conversion_triggered sample_host evs = false
      /\ existsb is_ffmpeg_run evs = false
      /\ requests evs =
         if startsWith "sk-or-v1-abc" "sk-or-"
         then [audio_request "sk-or-v1-abc" wav_bytes "mp3"]
         else
           let p := tempFilePath_of sample_host
                      (date_now sample_host (clock_reads fresh_world))
                      ("recording." +:+ "mp3") in
           match write_fault sample_host p with
           | None => [WhisperUpload "sk-or-v1-abc" p wav_bytes "whisper-1" "en"]
           | Some _ => []
           end.
Proof.
  split; [repeat split; discriminate|]. split; [left; reflexivity|].
  apply (supported_recording_sent_unchanged sample_host openrouter_cfg
           "sk-or-v1-abc" wav_bytes "mp3" fresh_world).
  - repeat split; discriminate.
  - left; reflexivity.
Defined.

(** C10, as the code has it.  With a configured credential, the format the
    handler declares is a function of the file name alone ([mp3] when the
    lowercased name ends with [.mp3], [wav] otherwise), and a conversion is
    started exactly when the key selects OpenRouter and the lowercased name
    contains [webm].  On the OpenRouter path the tag that is sent is [wav]
    after a conversion and the declared format otherwise; a buffer whose
    name does not contain [webm] goes out unconverted under the declared
    format, whatever it holds.  On the Whisper path nothing is converted
    and the buffer is uploaded as it is, without a format tag. *)
Theorem format_and_conversion_from_filename h cfg key buf fn w :
  configured cfg key ->
  let isWebM := includes (toLowerCase fn) "webm" in
  (declared_format fn = "mp3" <-> endsWith (toLowerCase fn) ".mp3" = true)
  /\ (declared_format fn = "wav" <-> endsWith (toLowerCase fn) ".mp3" = false)
  /\ exists evs,
      trace (snd (transcribe_audio h cfg buf fn w)) = trace w ++ evs
      /\ conversion_triggered h evs = startsWith key "sk-or-" && isWebM
      /\ if startsWith key "sk-or-"
         then Forall (fun r => exists payload,
                        r = audio_request key payload
                              (if isWebM then "wav" else declared_format fn))
                (requests evs)
              /\ (isWebM = false ->
                  requests evs = [audio_request key buf (declared_format fn)])
         else Forall (fun r => exists p,
                        r = WhisperUpload key p buf "whisper-1" "en")
                (requests evs).
Proof.
  intros Hc isWebM. split; [|split].
  - unfold declared_format. destruct (endsWith _ _); split; done.
  - unfold declared_format. destruct (endsWith _ _); split; done.
  - rewrite (transcribe_audio_configured h cfg key buf fn w Hc).
    fold isWebM. destruct (startsWith key "sk-or-"); cbn [andb].
    + destruct isWebM.
      * destruct (openrouter_webm_events h key buf (declared_format fn) w)
          as (evs & Ht & Hn & Hr).
        exists evs. split; [done|]. split; [done|]. split; [|done].
        rewrite Hr. destruct (fst _); repeat constructor. eauto.
      * rewrite openrouter_plain_events. eexists. split; [done|].
        split; [done|]. split; [|done]. repeat constructor. eauto.
    + destruct (whisper_events h key buf fn w) as (evs & Ht & Hn & _ & Hr).
      exists evs. split; [done|]. split; [done|]. rewrite Hr.
      destruct (write_fault h _) as [[? ?]|]; repeat constructor. eauto.
Qed.

Lemma format_and_conversion_from_filename_witness :
  configured openrouter_cfg "sk-or-v1-abc"
  /\ let isWebM := includes (toLowerCase "take1.MP3") "webm" in
     (declared_format "take1.MP3" = "mp3"
      <-> endsWith (toLowerCase "take1.MP3") ".mp3" = true)
     /\ (declared_format "take1.MP3" = "wav"
         <-> endsWith (toLowerCase "take1.MP3") ".mp3" = false)
     /\ exists evs,
         trace (snd (transcribe_audio sample_host openrouter_cfg webm_bytes
                       "take1.MP3" fresh_world)) = trace fresh_world ++ evs
         /\ conversion_triggered sample_host evs
            = startsWith "sk-or-v1-abc" "sk-or-" && isWebM
         /\ if startsWith "sk-or-v1-abc" "sk-or-"
            then Forall (fun r => exists payload,
                           r = audio_request "sk-or-v1-abc" payload
                                 (if isWebM then "wav"
                                  else declared_format "take1.MP3"))
                   (requests evs)
                 /\ (isWebM = false ->
                     requests evs = [audio_request "sk-or-v1-abc" webm_bytes
                                       (declared_format "take1.MP3")])
            else Forall (fun r => exists p,
                           r = WhisperUpload "sk-or-v1-abc" p webm_bytes
                                 "whisper-1" "en")
                   (requests evs).
Proof.
  split; [repeat split; discriminate|].
  apply (format_and_conversion_from_filename sample_host openrouter_cfg
           "sk-or-v1-abc" webm_bytes "take1.MP3" fresh_world).
  repeat split; discriminate.
Defined.

(** C10 as stated fails: with an OpenAI key a file name that contains
    [webm] starts no conversion; and with an OpenRouter key a name that
    contains [webm] and ends with [.mp3] is sent under the tag [wav]. *)
Lemma webm_filename_without_conversion :
  let r := transcribe_audio sample_host openai_cfg webm_bytes
             "recording.webm" fresh_world in
  let r' := transcribe_audio sample_host openrouter_cfg webm_bytes
              "webm-take.mp3" fresh_world in
  includes (toLowerCase "recording.webm") "webm" = true
  /\ conversion_triggered sample_host (trace (snd r)) = false
  /\ endsWith (toLowerCase "webm-take.mp3") ".mp3" = true
  /\ requests (trace (snd r')) = [audio_request "sk-or-v1-abc" wav_bytes "wav"].
Proof. vm_compute. repeat split. Qed.

(** ** Temporary files *)

(** On every way out of [convertWebMToWAV] but one, neither temporary file
    is left, as long as the host lets them be removed; the way out that
    keeps them is a failed read of the converted file. *)
Lemma convert_cleans_up_unless_read_fails h buf w :
  let p := inputPath_of h (date_now h (clock_reads w)) in
  let q := outputPath_of h (date_now h (S (clock_reads w))) in
  let w' := snd (convertWebMToWAV h buf w) in
  unlink_fault h p = None ->
  unlink_fault h q = None ->
  (files w' !! p = None /\ files w' !! q = None)
  \/ (exists e, read_fault h q = Some e
      /\ files w' !! p = Some buf /\ is_Some (files w' !! q)).
Proof.
  intros p q w' Hup Huq. unfold w'.
  destruct (convert_cases h buf w)
    as [(e & evs & fs1 & -> & _ & Ht)|[(o & fs1 & Hf & -> & Ht)|(o & e & Hf & Hr & ->)]];
    cbn [snd files].
  - left. destruct Ht as (_ & Hp & Hq). split; [by apply Hp|by apply Hq].
  - left. destruct Ht as (_ & Hp & Hq). split; [by apply Hp|by apply Hq].
  - right. exists e. split; [done|]. split.
    + rewrite lookup_insert_ne by (symmetry; apply input_ne_output).
      apply lookup_insert_eq.
    + rewrite lookup_insert_eq. by eexists.
Qed.

(** The Whisper path removes its temporary file on every way out past the
    write, as long as the host lets it be removed. *)
Lemma whisper_temp_file_removed h key buf fn w :
  write_fault h (tempFilePath_of h (date_now h (clock_reads w)) fn) = None ->
  unlink_fault h (tempFilePath_of h (date_now h (clock_reads w)) fn) = None ->
  files (snd (transcribe_whisper h key buf fn w))
  !! tempFilePath_of h (date_now h (clock_reads w)) fn = None.
Proof.
  intros Hw Hu. rewrite whisper_run, Hw. cbn [snd files].
  by apply unlinked_lookup_eq.
Qed.

(** C1.  FFmpeg ends normally and the converted file cannot be read back:
    the handler fails and both temporary files of the call are still on
    disk, with the recorded audio in the first. *)
Theorem read_failure_leaves_temp_files :
  let r := transcribe_audio unreadable_host openrouter_cfg webm_bytes
             "recording.webm" fresh_world in
  files fresh_world = ∅
  /\ fst r = Throw ("Failed to convert WebM audio to WAV format: "
                    +:+ "Failed to read converted WAV file: "
                    +:+ "EMFILE: too many open files"
                    +:+ ". Please ensure FFmpeg is properly installed.")
  /\ files (snd r) !! "/tmp/input_1700000000000.webm" = Some webm_bytes
  /\ files (snd r) !! "/tmp/output_1700000000001.wav" = Some wav_bytes
  /\ trace (snd r) =
     [FsWrite "/tmp/input_1700000000000.webm" webm_bytes;
      FfmpegRun "/tmp/input_1700000000000.webm" "/tmp/output_1700000000001.wav";
      FsRead "/tmp/output_1700000000001.wav"].
Proof. vm_compute. repeat split. Qed.

(** ** The answer handler *)

(** C9.  When the provider's completion has no first choice, no message in
    it, or a missing or empty content, the handler returns the fixed
    apology as its answer, and that answer is not empty. *)
Theorem degenerate_completion_gets_fallback h cfg key question w choices :
  configured cfg key ->
  chat_reply h (generation_request cfg key question) = inr choices ->
  first_content choices = None \/ first_content choices = Some "" ->
  fst (generate_behavioral_answer h cfg question w)
  = Return (mkAnswer fallback_answer)
  /\ fallback_answer <> "".
Proof.
  intros Hc Hreply Hcontent.
  rewrite (generate_configured h cfg key question w Hc), Hreply.
  cbn [fst]. split; [|discriminate].
  by destruct Hcontent as [-> | ->].
Qed.

Lemma degenerate_completion_gets_fallback_witness :
  configured openai_cfg "sk-abc"
  /\ chat_reply speechless_host
       (generation_request openai_cfg "sk-abc" "Why this company?")
     = inr [mkChoice (Some (mkMessage None))]
  /\ (first_content [mkChoice (Some (mkMessage None))] = None
      \/ first_content [mkChoice (Some (mkMessage None))] = Some "")
  /\ fst (generate_behavioral_answer speechless_host openai_cfg
            "Why this company?" fresh_world)
     = Return (mkAnswer fallback_answer)
  /\ fallback_answer <> "".
Proof.
  split; [repeat split; discriminate|]. split; [reflexivity|].
  split; [left; reflexivity|].
  apply (degenerate_completion_gets_fallback speechless_host openai_cfg
           "sk-abc" "Why this company?" fresh_world
           [mkChoice (Some (mkMessage None))]).
  - repeat split; discriminate.
  - reflexivity.
  - left; reflexivity.
Defined.

(** C2 as stated fails: the handler does not look at the question before
    it calls the provider.  For the empty question and an OpenAI key it
    sends the chat request and returns the provider's answer. *)
Lemma empty_question_reaches_provider :
  let r := generate_behavioral_answer sample_host openai_cfg "" fresh_world in
  trim "" = ""
  /\ fst r = Return (mkAnswer "Tell me about a time you led a team.")
  /\ requests (trace (snd r)) = [generation_request openai_cfg "sk-abc" ""].
Proof. vm_compute. repeat split. Qed.

(** ** The recorder component *)

Arguments transcribe_audio : simpl never.
Arguments generate_behavioral_answer : simpl never.

(** Runs the component's state updates by value, so that each update sees
    the record the previous one built. *)
Ltac ui_eval :=
  cbv beta iota zeta delta
    [UI.showToast UI.emit UI.in_main UI.setIsRecording UI.setIsProcessing
     UI.setAudioBlob UI.setTranscription UI.setAnswer UI.setAudioFormat
     UI.setMediaRecorderRef UI.setAudioChunksRef UI.setLiveTracks
     Eff.try_catch Eff.try_finally Eff.bind Eff.throw Eff.ret Eff.modify
     Eff.get
     isRecording isProcessing audioBlob transcription answer_shown
     audioFormat mediaRecorderRef audioChunksRef live_tracks rtrace main].

Lemma first_supported_in_preference supported f :
  first_supported supported = Some f -> In f preference /\ supported (fst f) = true.
Proof. intros H. by apply find_some in H. Qed.

(** The format chain is the search of the preference list. *)
Lemma choose_format_run br s :
  choose_format br s =
  (Return (spec_choose (isTypeSupported br)),
   if fallback_reached (isTypeSupported br)
   then snd (UI.emit webm_notice s)
   else s).
Proof.
  unfold choose_format, spec_choose, fallback_reached, first_supported.
  cbn [preference find fst].
  destruct (isTypeSupported br "audio/mp3"); [done|].
  destruct (isTypeSupported br "audio/wav"); [done|].
  destruct (isTypeSupported br "audio/wave"); [done|].
  destruct (isTypeSupported br "audio/x-wav"); done.
Qed.



(** A format from the preference list is saved as [mp3] or [wav]. *)
Lemma preferred_extension supported :
  fallback_reached supported = false ->
  snd (spec_choose supported) = "mp3" \/ snd (spec_choose supported) = "wav".
Proof.
  unfold fallback_reached, spec_choose.
  destruct (first_supported supported) as [f|] eqn:Hf; [|done]. intros _.
  apply first_supported_in_preference in Hf as [Hin _].
  cbn in Hin. repeat destruct Hin as [<-|Hin]; cbn; auto. done.
Qed.

Lemma stopRecording_run br s r :
  mediaRecorderRef s = Some r ->
  isRecording s = true ->
  stopRecording br s =
  let chunks :=
    if (0 <? length (final_chunk br))%nat
    then audioChunksRef s ++ [final_chunk br]
    else audioChunksRef s in
  (Return tt,
   mkSys false (isProcessing s)
     (Some (mkBlob (concat chunks) (rec_mimeType r)))
     (transcription s) (answer_shown s) (rec_fileExtension r) (Some r) chunks
     (filter (fun t => t ∉ rec_stream r) (live_tracks s))
     (rtrace s ++ [Toast "Recording" "Audio recording stopped" "neutral"])
     (main s)).
Proof.
  intros Hr Hrec. unfold stopRecording, ondataavailable, onstop, stop_tracks.
  destruct s; cbn [mediaRecorderRef isRecording] in Hr, Hrec; subst.
  destruct (0 <? length (final_chunk br))%nat; ui_eval; reflexivity.
Qed.

(** A capture that goes well: the recording is saved under the chosen
    format and the tracks of its stream are stopped. *)
Lemma capture_round br s tracks :
  getUserMedia br = inr tracks ->
  isTypeSupported br (fst (spec_choose (isTypeSupported br))) = true ->
  start_fault br = None ->
  let s1 := snd (startRecording br s) in
  let s2 := snd (stopRecording br s1) in
  isRecording s1 = true
  /\ live_tracks s1 = live_tracks s ++ tracks
  /\ audioFormat s2 = snd (spec_choose (isTypeSupported br))
  /\ (exists data,
        audioBlob s2 = Some (mkBlob data (fst (spec_choose (isTypeSupported br)))))
  /\ isRecording s2 = false
  /\ forall t, t ∈ tracks -> t ∉ live_tracks s2.
Proof.
  intros Hg Hs Hf s1 s2.
  assert (exists tr,
    s1 = mkSys true (isProcessing s) (audioBlob s) (transcription s)
           (answer_shown s) (audioFormat s)
           (Some (mkRecorder tracks (fst (spec_choose (isTypeSupported br)))
                    (snd (spec_choose (isTypeSupported br)))))
           [] (live_tracks s ++ tracks) tr (main s)) as [tr Hs1].
  { unfold s1, startRecording, acquire_stream. rewrite Hg.
    unfold Eff.try_catch at 1. unfold Eff.bind at 1 2.
    ui_eval. rewrite choose_format_run.
    unfold new_MediaRecorder, recorder_start. rewrite Hf.
    destruct (fallback_reached _); ui_eval; rewrite Hs; ui_eval;
      by eexists. }
  unfold s2. rewrite Hs1.
  erewrite stopRecording_run by reflexivity.
  cbn [snd audioFormat audioBlob isRecording live_tracks rec_fileExtension
       rec_mimeType rec_stream].
  split; [done|]. split; [done|]. split; [done|].
  split; [by eexists|]. split; [done|].
  intros t Ht Hin. apply list_elem_of_filter in Hin as [Hn _]. done.
Qed.

(** C4.  The host grants the microphone and records none of the five
    formats: [new MediaRecorder] throws after the stream was acquired, the
    [catch] block only shows the notice, and the track stays live;
    [stopRecording] has no recorder to stop and changes nothing.  The same
    happens when [mediaRecorder.start] throws: [isRecording] was never
    set, so [stopRecording] does not stop the recorder either. *)
Theorem setup_failure_keeps_microphone :
  let s1 := snd (startRecording bare_browser fresh_sys) in
  let s2 := snd (stopRecording bare_browser s1) in
  let t1 := snd (startRecording stalling_browser fresh_sys) in
  let t2 := snd (stopRecording stalling_browser t1) in
  live_tracks fresh_sys = []
  /\ (live_tracks s1 = [0]
      /\ isRecording s1 = false
      /\ mediaRecorderRef s1 = None
      /\ rtrace s1 = [webm_notice; start_failure_notice]
      /\ s2 = s1)
  /\ (live_tracks t1 = [0]
      /\ isRecording t1 = false
      /\ rtrace t1 = [webm_notice; start_failure_notice]
      /\ t2 = t1).
Proof. vm_compute. repeat split. Qed.

(** The run of [processAudio] when the transcript comes back and trims to
    nothing: the [else] branch, then the [finally] block. *)
Lemma processAudio_silent h cfg s blob res :
  audioBlob s = Some blob ->
  fst (transcribe_audio h cfg (blob_data blob)
         ("recording." +:+ audioFormat s) (main s)) = Return res ->
  trim (text res) = "" ->
  processAudio h cfg s =
  (Return Finished,
   mkSys (isRecording s) false (audioBlob s) (text res) (answer_shown s)
     (audioFormat s) (mediaRecorderRef s) (audioChunksRef s) (live_tracks s)
     (rtrace s ++
      [processing_notice;
       InvokeTranscribe (blob_data blob) ("recording." +:+ audioFormat s);
       no_speech_notice])
     (snd (transcribe_audio h cfg (blob_data blob)
             ("recording." +:+ audioFormat s) (main s)))).
Proof.
  intros Hb Hres Htrim. unfold processAudio, transcribeAudio.
  destruct s as [rec prc ab tx an fmt ref chunks live tr w].
  cbn [audioBlob audioFormat main] in *. subst ab. ui_eval.
  destruct (transcribe_audio h cfg (blob_data blob) _ w) as [r w'] eqn:Hrun.
  cbn [fst] in Hres. subst r. cbn [snd text]. rewrite Htrim. ui_eval.
  cbn [truthy]. ui_eval.
  by rewrite <- !app_assoc.
Qed.

(** C5.  When the transcript that comes back trims to the empty string,
    [processAudio] leaves through the end of its [try] block and not
    through [catch]: it shows the no-speech warning after the processing
    notice, calls the transcription handler only, shows no failure notice,
    reports no completed answer, and clears [isProcessing]. *)
Theorem empty_transcript_completes_with_warning h cfg s blob res :
  audioBlob s = Some blob ->
  fst (transcribe_audio h cfg (blob_data blob)
         ("recording." +:+ audioFormat s) (main s)) = Return res ->
  trim (text res) = "" ->
  let s' := snd (processAudio h cfg s) in
  fst (processAudio h cfg s) = Return Finished
  /\ rtrace s' =
     rtrace s ++
     [processing_notice;
      InvokeTranscribe (blob_data blob) ("recording." +:+ audioFormat s);
      no_speech_notice]
  /\ isProcessing s' = false
  /\ transcription s' = text res
  /\ answer_shown s' = answer_shown s.
Proof.
  intros Hb Hres Htrim.
  by rewrite (processAudio_silent h cfg s blob res Hb Hres Htrim).
Qed.

Lemma empty_transcript_completes_with_warning_witness :
  let s := recorded webm_bytes "audio/webm;codecs=opus" "webm" in
  audioBlob s = Some (mkBlob webm_bytes "audio/webm;codecs=opus")
  /\ fst (transcribe_audio silent_host openrouter_cfg webm_bytes
            ("recording." +:+ audioFormat s) (main s))
     = Return (mkTranscription "  ")
  /\ trim (text (mkTranscription "  ")) = ""
  /\ fst (processAudio silent_host openrouter_cfg s) = Return Finished
  /\ rtrace (snd (processAudio silent_host openrouter_cfg s)) =
     rtrace s ++
     [processing_notice;
      InvokeTranscribe webm_bytes ("recording." +:+ audioFormat s);
      no_speech_notice]
  /\ isProcessing (snd (processAudio silent_host openrouter_cfg s)) = false
  /\ transcription (snd (processAudio silent_host openrouter_cfg s)) = "  "
  /\ answer_shown (snd (processAudio silent_host openrouter_cfg s))
     = answer_shown s.
Proof.
  intros s. split; [reflexivity|]. split; [vm_compute; reflexivity|].
  split; [reflexivity|].
  apply (empty_transcript_completes_with_warning silent_host openrouter_cfg
           s (mkBlob webm_bytes "audio/webm;codecs=opus")
           (mkTranscription "  ")).
  - reflexivity.
  - vm_compute; reflexivity.
  - reflexivity.
Defined.

(** C2, as the code has it.  The check for an empty question is made by
    [processAudio], before the answer handler is invoked: when the
    transcript trims to the empty string the renderer never calls
    [generateBehavioralAnswer], and the main process is left as the
    transcription left it, so no generation request is sent.  The handler
    itself does not check: with a configured credential it sends one chat
    request for whatever question it is given. *)
Theorem empty_question_stopped_by_orchestrator h cfg s blob res :
  audioBlob s = Some blob ->
  fst (transcribe_audio h cfg (blob_data blob)
         ("recording." +:+ audioFormat s) (main s)) = Return res ->
  trim (text res) = "" ->
  let s' := snd (processAudio h cfg s) in
  (exists evs, rtrace s' = rtrace s ++ evs
               /\ forall question, InvokeGenerate question ∉ evs)
  /\ main s' = snd (transcribe_audio h cfg (blob_data blob)
                      ("recording." +:+ audioFormat s) (main s))
  /\ forall key question w,
       configured cfg key ->
       requests (trace (snd (generate_behavioral_answer h cfg question w)))
       = requests (trace w) ++ [generation_request cfg key question].
Proof.
  intros Hb Hres Htrim.
  rewrite (processAudio_silent h cfg s blob res Hb Hres Htrim).
  cbn [snd rtrace main]. split; [|split; [done|]].
  - eexists. split; [done|]. intros question Hin.
    repeat (apply elem_of_cons in Hin as [Hin|Hin]; [discriminate|]).
    by apply elem_of_nil in Hin.
  - intros key question w Hc.
    rewrite (generate_configured h cfg key question w Hc).
    cbn [snd trace]. by rewrite requests_app.
Qed.

Lemma empty_question_stopped_by_orchestrator_witness :
  let s := recorded webm_bytes "audio/webm;codecs=opus" "webm" in
  let s' := snd (processAudio silent_host openai_cfg s) in
  audioBlob s = Some (mkBlob webm_bytes "audio/webm;codecs=opus")
  /\ fst (transcribe_audio silent_host openai_cfg webm_bytes
            ("recording." +:+ audioFormat s) (main s))
     = Return (mkTranscription "  ")
  /\ trim (text (mkTranscription "  ")) = ""
  /\ (exists evs, rtrace s' = rtrace s ++ evs
                  /\ forall question, InvokeGenerate question ∉ evs)
  /\ main s' = snd (transcribe_audio silent_host openai_cfg webm_bytes
                      ("recording." +:+ audioFormat s) (main s))
  /\ forall key question w,
       configured openai_cfg key ->
       requests (trace (snd (generate_behavioral_answer silent_host openai_cfg
                               question w)))
       = requests (trace w) ++ [generation_request openai_cfg key question].
Proof.
  intros s s'. split; [reflexivity|]. split; [vm_compute; reflexivity|].
  split; [reflexivity|].
  apply (empty_question_stopped_by_orchestrator silent_host openai_cfg
           s (mkBlob webm_bytes "audio/webm;codecs=opus")
           (mkTranscription "  ")).
  - reflexivity.
  - vm_compute; reflexivity.
  - reflexivity.
Defined.

(** ** More on the handlers *)

(** How the handlers turn down a call without a usable credential. *)
Lemma unconfigured_cases cfg :
  (forall key, ~ configured cfg key) ->
  hasApiKey cfg = false
  \/ (hasApiKey cfg = true /\ (apiKey cfg = None \/ apiKey cfg = Some "")).
Proof.
  intros Hn. destruct (hasApiKey cfg) eqn:Hk; [right|by left].
  split; [done|].
  destruct (apiKey cfg) as [[|c key]|] eqn:Ha; auto.
  destruct (Hn (String c key)). by repeat split.
Qed.

(** Without a usable credential ["transcribe-audio"] throws before it
    does anything: the world is as it was (no file, no request, no clock
    read), and the message tells a missing key from a refused one. *)
Theorem transcribe_rejects_without_credential h cfg buf fn w :
  (forall key, ~ configured cfg key) ->
  transcribe_audio h cfg buf fn w =
  (Throw (if hasApiKey cfg then "API key not found"
          else "API key is required for audio transcription"), w).
Proof.
  intros Hn. unfold transcribe_audio. rewrite try_catch_rethrow.
  destruct (unconfigured_cases cfg Hn) as [-> | (-> & [-> | ->])]; done.
Qed.

Lemma transcribe_rejects_without_credential_witness :
  (forall key, ~ configured (mkConfig true (Some "") None) key)
  /\ transcribe_audio sample_host (mkConfig true (Some "") None) webm_bytes
       "recording.webm" fresh_world =
     (Throw (if hasApiKey (mkConfig true (Some "") None)
             then "API key not found"
             else "API key is required for audio transcription"),
      fresh_world).
Proof.
  assert (forall key, ~ configured (mkConfig true (Some "") None) key) as Hn.
  { intros key (_ & Ha & Hne). cbn in Ha. congruence. }
  split; [exact Hn|].
  apply (transcribe_rejects_without_credential sample_host (mkConfig true (Some "") None)
           webm_bytes "recording.webm" fresh_world Hn).
Defined.

(** The same for ["generate-behavioral-answer"]. *)
Theorem generate_rejects_without_credential h cfg question w :
  (forall key, ~ configured cfg key) ->
  generate_behavioral_answer h cfg question w =
  (Throw (if hasApiKey cfg then "API key not found"
          else "API key is required for answer generation"), w).
Proof.
  intros Hn. unfold generate_behavioral_answer. rewrite try_catch_rethrow.
  destruct (unconfigured_cases cfg Hn) as [-> | (-> & [-> | ->])]; done.
Qed.

Lemma generate_rejects_without_credential_witness :
  (forall key, ~ configured (mkConfig false (Some "sk-abc") None) key)
  /\ generate_behavioral_answer sample_host
       (mkConfig false (Some "sk-abc") None) "Why this company?" fresh_world =
     (Throw (if hasApiKey (mkConfig false (Some "sk-abc") None)
             then "API key not found"
             else "API key is required for answer generation"),
      fresh_world).
Proof.
  assert (forall key, ~ configured (mkConfig false (Some "sk-abc") None) key)
    as Hn.
  { intros key (Hk & _). cbn in Hk. congruence. }
  split; [exact Hn|].
  apply (generate_rejects_without_credential sample_host
           (mkConfig false (Some "sk-abc") None) "Why this company?"
           fresh_world Hn).
Defined.

(** What the Whisper path leaves on disk, for a file name without
    separators and a temporary path that is free.  When the temporary file
    is written and the host lets it be removed, the file system is as it
    was found, whether the upload succeeds or the provider fails.  When
    the host refuses to remove it, the failure is swallowed and the file
    stays, with the recording in it.  When the write itself fails, which
    happens before the [try], nothing is cleaned up: what the failed write
    left at the path stays.  No other file is touched. *)
Theorem whisper_leaves_files_as_found h key buf fn w :
  let p := tempFilePath_of h (date_now h (clock_reads w)) fn in
  plain_name fn = true ->
  files w !! p = None ->
  files (snd (transcribe_whisper h key buf fn w))
  = match write_fault h p with
    | Some (_, remains) => left_by remains p (files w)
    | None =>
        match unlink_fault h p with
        | None => files w
        | Some _ => <[p := buf]> (files w)
        end
    end.
Proof.
  intros p _ Hfree. rewrite whisper_run. fold p.
  destruct (write_fault h p) as [[e remains]|]; cbn [snd files]; [done|].
  unfold unlinked. destruct (unlink_fault h p); [done|].
  rewrite delete_insert_eq. by apply delete_id.
Qed.

Lemma whisper_leaves_files_as_found_witness :
  let p := tempFilePath_of sample_host
             (date_now sample_host (clock_reads fresh_world))
             "recording.webm" in
  plain_name "recording.webm" = true
  /\ files fresh_world !! p = None
  /\ files (snd (transcribe_whisper sample_host "sk-abc" webm_bytes
                   "recording.webm" fresh_world)) = files fresh_world.
Proof.
  intros p. split; [reflexivity|]. split; [reflexivity|].
  apply (whisper_leaves_files_as_found sample_host "sk-abc" webm_bytes
           "recording.webm" fresh_world).
  - reflexivity.
  - reflexivity.
Defined.

(** A refused removal is swallowed: the transcript comes back and the
    temporary file stays. *)
Example whisper_on_sticky_host :
  let r := transcribe_audio sticky_host openai_cfg wav_bytes "recording.wav"
             fresh_world in
  fst r = Return (mkTranscription "Tell me about a time you led a team.")
  /\ files (snd r) !! "/tmp/temp_audio_1700000000000_recording.wav"
     = Some wav_bytes.
Proof. vm_compute. by split. Qed.

(** A failed write is not cleaned up after: the empty file it created
    stays, and nothing is uploaded. *)
Example whisper_on_full_disk :
  let r := transcribe_audio full_disk_host openai_cfg wav_bytes
             "recording.wav" fresh_world in
  fst r = Throw "ENOSPC: no space left on device"
  /\ files (snd r) !! "/tmp/temp_audio_1700000000000_recording.wav" = Some []
  /\ requests (trace (snd r)) = [].
Proof. vm_compute. by repeat split. Qed.

(** The conversion does clean up after a failed write of its input. *)
Example conversion_on_full_disk :
  let r := convertWebMToWAV full_disk_host webm_bytes fresh_world in
  fst r = Throw ("WebM to WAV conversion setup failed: "
                 +:+ "ENOSPC: no space left on device")
  /\ files (snd r) !! "/tmp/input_1700000000000.webm" = None.
Proof. vm_compute. by split. Qed.

(** A conversion touches its two temporary files only: every other path
    holds after the call what it held before, on every way out. *)
Theorem conversion_touches_only_its_files h buf w path :
  path <> inputPath_of h (date_now h (clock_reads w)) ->
  path <> outputPath_of h (date_now h (S (clock_reads w))) ->
  files (snd (convertWebMToWAV h buf w)) !! path = files w !! path.
Proof.
  intros Hp Hq.
  destruct (convert_cases h buf w)
    as [(e & evs & fs1 & -> & _ & Ht)|[(o & fs1 & Hf & -> & Ht)|(o & e & Hf & Hr & ->)]];
    cbn [snd files].
  - destruct Ht as (Ho & _). by apply Ho.
  - destruct Ht as (Ho & _). by apply Ho.
  - by rewrite !lookup_insert_ne.
Qed.

Lemma conversion_touches_only_its_files_witness :
  "/tmp/notes.txt"
  <> inputPath_of sample_host (date_now sample_host (clock_reads fresh_world))
  /\ "/tmp/notes.txt"
     <> outputPath_of sample_host
          (date_now sample_host (S (clock_reads fresh_world)))
  /\ files (snd (convertWebMToWAV sample_host webm_bytes fresh_world))
     !! "/tmp/notes.txt" = files fresh_world !! "/tmp/notes.txt".
Proof.
  split; [vm_compute; discriminate|]. split; [vm_compute; discriminate|].
  apply (conversion_touches_only_its_files sample_host webm_bytes fresh_world
           "/tmp/notes.txt").
  - vm_compute; discriminate.
  - vm_compute; discriminate.
Defined.

(** When the conversion fails on the OpenRouter path, the handler sends
    nothing and throws the cause wrapped in its own message. *)
Theorem failed_conversion_sends_nothing h cfg key buf fn w e :
  configured cfg key ->
  startsWith key "sk-or-" = true ->
  includes (toLowerCase fn) "webm" = true ->
  fst (convertWebMToWAV h buf w) = Throw e ->
  fst (transcribe_audio h cfg buf fn w) =
  Throw ("Failed to convert WebM audio to WAV format: " +:+ e
         +:+ ". Please ensure FFmpeg is properly installed.")
  /\ requests (trace (snd (transcribe_audio h cfg buf fn w)))
     = requests (trace w).
Proof.
  intros Hc Hor Hweb Hconv.
  rewrite (transcribe_audio_configured h cfg key buf fn w Hc), Hor, Hweb.
  rewrite openrouter_webm.
  pose proof (convert_sends_nothing h buf w) as Hq.
  destruct (convertWebMToWAV h buf w) as [[wav|e'] wc]; cbn [fst snd] in *.
  - discriminate.
  - by simplify_eq.
Qed.


Lemma failed_conversion_sends_nothing_witness :
  configured openrouter_cfg "sk-or-v1-abc"
  /\ startsWith "sk-or-v1-abc" "sk-or-" = true
  /\ includes (toLowerCase "recording.webm") "webm" = true
  /\ fst (convertWebMToWAV broken_ffmpeg_host webm_bytes fresh_world)
     = Throw ("FFmpeg conversion failed: " +:+ "ffmpeg exited with code 1")
  /\ fst (transcribe_audio broken_ffmpeg_host openrouter_cfg webm_bytes
            "recording.webm" fresh_world) =
     Throw ("Failed to convert WebM audio to WAV format: "
            +:+ ("FFmpeg conversion failed: " +:+ "ffmpeg exited with code 1")
            +:+ ". Please ensure FFmpeg is properly installed.")
  /\ requests (trace (snd (transcribe_audio broken_ffmpeg_host openrouter_cfg
                             webm_bytes "recording.webm" fresh_world)))
     = requests (trace fresh_world).
Proof.
  split; [repeat split; discriminate|]. split; [reflexivity|].
  split; [reflexivity|]. split; [vm_compute; reflexivity|].
  apply (failed_conversion_sends_nothing broken_ffmpeg_host openrouter_cfg
           "sk-or-v1-abc" webm_bytes "recording.webm" fresh_world
           ("FFmpeg conversion failed: " +:+ "ffmpeg exited with code 1")).
  - repeat split; discriminate.
  - reflexivity.
  - reflexivity.
  - vm_compute; reflexivity.
Defined.

(** When the speech provider fails, the Whisper path throws the
    provider's error as it came, and it has cleaned up first: for a file
    name without separators whose temporary file was written, that file is
    gone, unless the host refused to remove it; that failure is swallowed,
    the provider's error is still the one thrown, and the file stays with
    the recording in it. *)
Theorem whisper_failure_is_rethrown_after_cleanup h cfg key buf fn w e :
  configured cfg key ->
  startsWith key "sk-or-" = false ->
  plain_name fn = true ->
  let p := tempFilePath_of h (date_now h (clock_reads w)) fn in
  write_fault h p = None ->
  whisper_reply h (WhisperUpload key p buf "whisper-1" "en") = inl e ->
  fst (transcribe_audio h cfg buf fn w) = Throw e
  /\ files (snd (transcribe_audio h cfg buf fn w)) !! p
     = match unlink_fault h p with
       | None => None
       | Some _ => Some buf
       end.
Proof.
  intros Hc Hor _ p Hw He.
  rewrite (transcribe_audio_configured h cfg key buf fn w Hc), Hor.
  rewrite whisper_run. fold p. rewrite Hw, He. cbn [fst snd files trace].
  split; [done|]. unfold unlinked.
  destruct (unlink_fault h p); [apply lookup_insert_eq|apply lookup_delete_eq].
Qed.

Lemma whisper_failure_is_rethrown_after_cleanup_witness :
  let p := tempFilePath_of refusing_host
             (date_now refusing_host (clock_reads fresh_world))
             "recording.wav" in
  configured openai_cfg "sk-abc"
  /\ startsWith "sk-abc" "sk-or-" = false
  /\ plain_name "recording.wav" = true
  /\ write_fault refusing_host p = None
  /\ whisper_reply refusing_host
       (WhisperUpload "sk-abc" p wav_bytes "whisper-1" "en")
     = inl "401 Incorrect API key provided"
  /\ fst (transcribe_audio refusing_host openai_cfg wav_bytes "recording.wav"
            fresh_world) = Throw "401 Incorrect API key provided"
  /\ files (snd (transcribe_audio refusing_host openai_cfg wav_bytes
                   "recording.wav" fresh_world)) !! p = None.
Proof.
  intros p. split; [repeat split; discriminate|]. split; [reflexivity|].
  split; [reflexivity|]. split; [reflexivity|]. split; [reflexivity|].
  apply (whisper_failure_is_rethrown_after_cleanup refusing_host openai_cfg
           "sk-abc" wav_bytes "recording.wav" fresh_world
           "401 Incorrect API key provided").
  - repeat split; discriminate.
  - reflexivity.
  - reflexivity.
  - reflexivity.
  - reflexivity.
Defined.

(** On the OpenRouter path a completion without text is not an error:
    whatever the request carried, a missing or empty content comes back as
    the empty transcript; the handler fails only if a conversion failed
    before the request. *)
Theorem missing_transcript_is_empty_text h cfg key buf fn w choices :
  configured cfg key ->
  startsWith key "sk-or-" = true ->
  (forall r, chat_reply h r = inr choices) ->
  first_content choices = None \/ first_content choices = Some "" ->
  fst (transcribe_audio h cfg buf fn w) = Return (mkTranscription "")
  \/ exists e, fst (convertWebMToWAV h buf w) = Throw e.
Proof.
  intros Hc Hor Hreply Hcontent.
  rewrite (transcribe_audio_configured h cfg key buf fn w Hc), Hor.
  destruct (includes (toLowerCase fn) "webm").
  - rewrite openrouter_webm.
    destruct (convertWebMToWAV h buf w) as [[wav|e] wc]; cbn [fst];
      [left|right; by eexists].
    rewrite Hreply. by destruct Hcontent as [-> | ->].
  - left. rewrite openrouter_plain, Hreply. cbn [fst].
    by destruct Hcontent as [-> | ->].
Qed.

Lemma missing_transcript_is_empty_text_witness :
  configured openrouter_cfg "sk-or-v1-abc"
  /\ startsWith "sk-or-v1-abc" "sk-or-" = true
  /\ (forall r, chat_reply speechless_host r
                = inr [mkChoice (Some (mkMessage None))])
  /\ (first_content [mkChoice (Some (mkMessage None))] = None
      \/ first_content [mkChoice (Some (mkMessage None))] = Some "")
  /\ (fst (transcribe_audio speechless_host openrouter_cfg wav_bytes
             "recording.wav" fresh_world) = Return (mkTranscription "")
      \/ exists e,
          fst (convertWebMToWAV speechless_host wav_bytes fresh_world)
          = Throw e).
Proof.
  split; [repeat split; discriminate|]. split; [reflexivity|].
  split; [reflexivity|]. split; [left; reflexivity|].
  apply (missing_transcript_is_empty_text speechless_host openrouter_cfg
           "sk-or-v1-abc" wav_bytes "recording.wav" fresh_world
           [mkChoice (Some (mkMessage None))]).
  - repeat split; discriminate.
  - reflexivity.
  - reflexivity.
  - left; reflexivity.
Defined.

(** *** File names *)

Lemma lowerChar_idempotent c : lowerChar (lowerChar c) = lowerChar c.
Proof. destruct c as [[] [] [] [] [] [] [] []]; reflexivity. Qed.

Lemma toLowerCase_idempotent s : toLowerCase (toLowerCase s) = toLowerCase s.
Proof.
  induction s as [|c s IH]; [done|].
  cbn [toLowerCase]. by rewrite lowerChar_idempotent, IH.
Qed.

(** On the OpenRouter path the handler reads the file name through its
    lower case only: a name and its lower case give the same run, so
    [RECORDING.WEBM] is converted like [recording.webm]. *)
Theorem openrouter_ignores_filename_case h cfg key buf fn w :
  configured cfg key ->
  startsWith key "sk-or-" = true ->
  transcribe_audio h cfg buf fn w
  = transcribe_audio h cfg buf (toLowerCase fn) w.
Proof.
  intros Hc Hor.
  rewrite !(transcribe_audio_configured h cfg key buf _ w Hc), Hor.
  unfold declared_format. by rewrite toLowerCase_idempotent.
Qed.

Lemma openrouter_ignores_filename_case_witness :
  configured openrouter_cfg "sk-or-v1-abc"
  /\ startsWith "sk-or-v1-abc" "sk-or-" = true
  /\ transcribe_audio sample_host openrouter_cfg webm_bytes "RECORDING.WEBM"
       fresh_world
     = transcribe_audio sample_host openrouter_cfg webm_bytes
         (toLowerCase "RECORDING.WEBM") fresh_world.
Proof.
  split; [repeat split; discriminate|]. split; [reflexivity|].
  apply (openrouter_ignores_filename_case sample_host openrouter_cfg
           "sk-or-v1-abc" webm_bytes "RECORDING.WEBM" fresh_world).
  - repeat split; discriminate.
  - reflexivity.
Defined.

(** *** The earlier handler *)

(** The handler with the conversion behaves as the earlier one did
    wherever no conversion applies: for every file name without [webm] in
    it, and for every credential that does not select OpenRouter. *)
Theorem conversion_only_changes_openrouter_webm h cfg buf fn w :
  includes (toLowerCase fn) "webm" = false
  \/ (forall key, apiKey cfg = Some key -> startsWith key "sk-or-" = false) ->
  transcribe_audio h cfg buf fn w = earlier_transcribe_audio h cfg buf fn w.
Proof.
  intros Hcase. unfold transcribe_audio, earlier_transcribe_audio.
  rewrite !try_catch_rethrow.
  destruct (hasApiKey cfg); cbn [negb]; [|done].
  destruct (apiKey cfg) as [key|] eqn:Ha; [|done].
  destruct (truthy key); cbn [negb]; [|done].
  destruct (startsWith key "sk-or-") eqn:Hor; [|done].
  destruct Hcase as [Hweb|Hkey]; [|by rewrite (Hkey key eq_refl) in Hor].
  rewrite Hweb, openrouter_plain.
  unfold chat_create, audio_request. io_unfold. cbn [trace files clock_reads].
  by destruct (chat_reply h _).
Qed.

Lemma conversion_only_changes_openrouter_webm_witness :
  (includes (toLowerCase "recording.mp3") "webm" = false
   \/ (forall key, apiKey openrouter_cfg = Some key ->
                   startsWith key "sk-or-" = false))
  /\ transcribe_audio sample_host openrouter_cfg wav_bytes "recording.mp3"
       fresh_world
     = earlier_transcribe_audio sample_host openrouter_cfg wav_bytes
         "recording.mp3" fresh_world.
Proof.
  split; [left; reflexivity|].
  apply (conversion_only_changes_openrouter_webm sample_host openrouter_cfg
           wav_bytes "recording.mp3" fresh_world).
  left; reflexivity.
Defined.

(** What the conversion was added for: the earlier handler sent a WebM
    recording to OpenRouter as it was captured, under the tag the file
    name gives, which for [recording.webm] is [wav]. *)
Theorem earlier_handler_sent_webm_as_wav h cfg key buf fn w :
  configured cfg key ->
  startsWith key "sk-or-" = true ->
  requests (trace (snd (earlier_transcribe_audio h cfg buf fn w)))
  = requests (trace w) ++ [audio_request key buf (declared_format fn)]
  /\ existsb is_ffmpeg_run (trace (snd (earlier_transcribe_audio h cfg buf fn w)))
     = existsb is_ffmpeg_run (trace w)
  /\ declared_format "recording.webm" = "wav".
Proof.
  intros (Hk & Ha & Hne) Hor. unfold earlier_transcribe_audio.
  rewrite try_catch_rethrow, Hk, Ha, (truthy_nonempty _ Hne), Hor.
  cbn [negb]. unfold chat_create. io_unfold. fold (declared_format fn).
  fold (audio_request key buf (declared_format fn)).
  destruct (chat_reply h _); cbn [snd trace];
    rewrite requests_app, existsb_app; cbn; rewrite orb_false_r; done.
Qed.

Lemma earlier_handler_sent_webm_as_wav_witness :
  configured openrouter_cfg "sk-or-v1-abc"
  /\ startsWith "sk-or-v1-abc" "sk-or-" = true
  /\ requests (trace (snd (earlier_transcribe_audio sample_host openrouter_cfg
                             webm_bytes "recording.webm" fresh_world)))
     = requests (trace fresh_world)
       ++ [audio_request "sk-or-v1-abc" webm_bytes
             (declared_format "recording.webm")]
  /\ existsb is_ffmpeg_run
       (trace (snd (earlier_transcribe_audio sample_host openrouter_cfg
                      webm_bytes "recording.webm" fresh_world)))
     = existsb is_ffmpeg_run (trace fresh_world)
  /\ declared_format "recording.webm" = "wav".
Proof.
  split; [repeat split; discriminate|]. split; [reflexivity|].
  apply (earlier_handler_sent_webm_as_wav sample_host openrouter_cfg
           "sk-or-v1-abc" webm_bytes "recording.webm" fresh_world).
  - repeat split; discriminate.
  - reflexivity.
Defined.

(** *** The answer handler, further *)

(** With a configured credential the answer handler calls the client's
    [chat.completions.create] exactly once, with the request built from
    the settings and the question (how many times the client then sends it
    is the client's matter: it retries on its own).  The handler touches
    no file, throws the error of that call as it came and returns a
    non-empty content as it came. *)
Theorem generate_asks_once h cfg key question w :
  configured cfg key ->
  let r := generate_behavioral_answer h cfg question w in
  requests (trace (snd r))
  = requests (trace w) ++ [generation_request cfg key question]
  /\ files (snd r) = files w
  /\ (forall e, chat_reply h (generation_request cfg key question) = inl e ->
      fst r = Throw e)
  /\ (forall choices c s,
        chat_reply h (generation_request cfg key question) = inr choices ->
        first_content choices = Some (String c s) ->
        fst r = Return (mkAnswer (String c s))).
Proof.
  intros Hc r. unfold r.
  rewrite (generate_configured h cfg key question w Hc).
  cbn [fst snd trace files]. split; [by rewrite requests_app|].
  split; [done|]. split.
  - by intros e ->.
  - by intros choices c s -> ->.
Qed.

Lemma generate_asks_once_witness :
  let r := generate_behavioral_answer sample_host openai_cfg
             "Why this company?" fresh_world in
  configured openai_cfg "sk-abc"
  /\ requests (trace (snd r))
     = requests (trace fresh_world)
       ++ [generation_request openai_cfg "sk-abc" "Why this company?"]
  /\ files (snd r) = files fresh_world
  /\ (forall e,
        chat_reply sample_host
          (generation_request openai_cfg "sk-abc" "Why this company?") = inl e ->
        fst r = Throw e)
  /\ (forall choices c s,
        chat_reply sample_host
          (generation_request openai_cfg "sk-abc" "Why this company?")
        = inr choices ->
        first_content choices = Some (String c s) ->
        fst r = Return (mkAnswer (String c s))).
Proof.
  intros r. split; [repeat split; discriminate|].
  apply (generate_asks_once sample_host openai_cfg "sk-abc"
           "Why this company?" fresh_world).
  repeat split; discriminate.
Defined.

Lemma startsWith_own_prefix sub rest : startsWith (sub +:+ rest) sub = true.
Proof.
  induction sub as [|c sub IH]; [done|].
  unfold String.append; fold String.append.
  cbn [startsWith]. by rewrite Ascii.eqb_refl.
Qed.

Lemma includes_at_start s sub : startsWith s sub = true -> includes s sub = true.
Proof. intros H. destruct s; cbn [includes]; by rewrite H. Qed.

Lemma includes_after a s sub :
  includes s sub = true -> includes (a +:+ s) sub = true.
Proof.
  intros H. induction a as [|c a IH]; [done|].
  unfold String.append; fold String.append.
  cbn [includes]. rewrite IH. apply orb_true_r.
Qed.

(** The prompt that is sent quotes the question as it was given, code
    unit for code unit, between two double quotes. *)
Theorem prompt_quotes_question question :
  includes (behavioral_prompt question) (dquote +:+ question +:+ dquote)
  = true.
Proof.
  unfold behavioral_prompt.
  do 4 apply includes_after.
  apply includes_at_start.
  rewrite !startsWith_app. apply startsWith_own_prefix.
Qed.

(** ** Blank transcripts *)

Lemma trimStart_empty s : trimStart s = "" <-> all_white s = true.
Proof.
  induction s as [|c s IH]; [done|].
  cbn [trimStart all_white]. destruct (isWhiteSpace c); [done|].
  split; discriminate.
Qed.

Lemma trimStart_head s c t :
  trimStart s = String c t -> isWhiteSpace c = false.
Proof.
  induction s as [|d s IH]; [done|].
  cbn [trimStart]. destruct (isWhiteSpace d) eqn:Hd; [done|].
  by intros [= <- _].
Qed.

Lemma all_white_rev_app s acc :
  all_white (String.rev_app s acc) = all_white s && all_white acc.
Proof.
  revert acc. induction s as [|c s IH]; intros acc; [done|].
  cbn [String.rev_app all_white]. rewrite IH. cbn [all_white].
  by destruct (isWhiteSpace c), (all_white s), (all_white acc).
Qed.

Lemma rev_app_empty s acc : String.rev_app s acc = "" -> s = "" /\ acc = "".
Proof.
  revert acc. induction s as [|c s IH]; intros acc; [done|].
  cbn [String.rev_app]. intros H. by destruct (IH _ H).
Qed.

Lemma latin1_trim_blank s : trim s = "" <-> all_white s = true.
Proof.
  unfold trim, trimEnd, String.rev. split.
  - intros H. apply rev_app_empty in H as [H _].
    apply trimStart_empty in H. rewrite all_white_rev_app in H.
    apply andb_true_iff in H as [H _].
    destruct (trimStart s) as [|c t] eqn:Ht; [by apply trimStart_empty|].
    apply trimStart_head in Ht. cbn [all_white] in H. by rewrite Ht in H.
  - intros H. apply trimStart_empty in H. by rewrite H.
Qed.

(** On code units below 256 the two notions of white space agree. *)
Lemma isWhiteSpace_agrees c :
  JsString16.isWhiteSpace (code c) = isWhiteSpace c.
Proof. by destruct c as [[] [] [] [] [] [] [] []]. Qed.

Lemma units_rev_app s acc :
  JsString16.units (String.rev_app s acc)
  = rev (JsString16.units s) ++ JsString16.units acc.
Proof.
  revert acc. induction s as [|c s IH]; intros acc; [done|].
  cbn [String.rev_app]. rewrite IH. unfold JsString16.units.
  cbn [list_ascii_of_string fmap list_fmap rev].
  by rewrite <- app_assoc.
Qed.

Lemma units_rev s :
  JsString16.units (String.rev s) = rev (JsString16.units s).
Proof. unfold String.rev. by rewrite units_rev_app, app_nil_r. Qed.

Lemma units_trimStart s :
  JsString16.units (trimStart s) = JsString16.trimStart (JsString16.units s).
Proof.
  induction s as [|c s IH]; [done|].
  cbn [trimStart]. unfold JsString16.units at 2.
  cbn [list_ascii_of_string fmap list_fmap JsString16.trimStart].
  rewrite isWhiteSpace_agrees. by destruct (isWhiteSpace c).
Qed.

(** The model's [trim] is the full [trim] on its strings. *)
Lemma units_trim s :
  JsString16.units (trim s) = JsString16.trim (JsString16.units s).
Proof.
  unfold trim, trimEnd, JsString16.trim, JsString16.trimEnd.
  by rewrite units_rev, units_trimStart, units_rev, units_trimStart.
Qed.

Lemma trimStart16_empty l :
  JsString16.trimStart l = [] <-> forallb JsString16.isWhiteSpace l = true.
Proof.
  induction l as [|c l IH]; [done|].
  cbn [JsString16.trimStart forallb].
  by destruct (JsString16.isWhiteSpace c).
Qed.

Lemma trimStart16_head l c t :
  JsString16.trimStart l = c :: t -> JsString16.isWhiteSpace c = false.
Proof.
  induction l as [|d l IH]; [done|].
  cbn [JsString16.trimStart].
  destruct (JsString16.isWhiteSpace d) eqn:Hd; [done|].
  intros [= <- _]. done.
Qed.

(** What [processAudio] takes for silence.  A transcript, as any sequence
    of 16-bit code units, trims to the empty string exactly when every one
    of its code units is white space or a line terminator of ECMAScript
    (tab, line feed, vertical tab, form feed, carriage return, space,
    no-break space, U+1680, U+2000 to U+200A, U+2028, U+2029, U+202F,
    U+205F, U+3000, U+FEFF), the empty transcript included.  On the
    strings of the model, whose code units are below 256, the model's
    [trim] is this [trim], and such a transcript trims to the empty string
    exactly when all of it is one of the first seven. *)
Theorem blank_iff_all_white (l : list N) (s : string) :
  (JsString16.trim l = [] <-> forallb JsString16.isWhiteSpace l = true)
  /\ JsString16.units (trim s) = JsString16.trim (JsString16.units s)
  /\ (trim s = "" <-> all_white s = true).
Proof.
  split; [|split; [apply units_trim|apply latin1_trim_blank]].
  unfold JsString16.trim, JsString16.trimEnd. split.
  - intros H. apply (f_equal (@rev N)) in H. rewrite rev_involutive in H.
    cbn [rev] in H. apply trimStart16_empty in H.
    rewrite forallb_forall in H.
    destruct (JsString16.trimStart l) as [|c t] eqn:Ht;
      [by apply trimStart16_empty|].
    apply trimStart16_head in Ht.
    rewrite (H c) in Ht; [done|]. apply in_rev. rewrite rev_involutive.
    by left.
  - intros H. apply trimStart16_empty in H. by rewrite H.
Qed.

(** ** The base64 payload *)

Module Base64Facts.

Import Base64 Base64Inverse.

Lemma below_64 (p : N -> bool) :
  forallb p (N.of_nat <$> seq 0 64) = true ->
  forall n, (n < 64)%N -> p n = true.
Proof.
  intros Hp n Hn. rewrite forallb_forall in Hp. apply Hp.
  apply list_elem_of_In, list_elem_of_fmap. exists (N.to_nat n).
  split; [lia|]. apply list_elem_of_In, in_seq. lia.
Qed.

Lemma undigit_digit n : (n < 64)%N -> undigit (digit n) = Some n.
Proof.
  intros Hn.
  pose proof (below_64
    (fun n => match undigit (digit n) with
              | Some m => N.eqb m n
              | None => false
              end) eq_refl n Hn) as H.
  cbv beta in H. destruct (undigit (digit n)) as [m|]; [|done].
  by apply N.eqb_eq in H as ->.
Qed.

Lemma digit_not_pad n : (n < 64)%N -> Ascii.eqb (digit n) pad = false.
Proof.
  intros Hn.
  pose proof (below_64 (fun n => negb (Ascii.eqb (digit n) pad))
                eq_refl n Hn) as H.
  cbv beta in H. by destruct (Ascii.eqb (digit n) pad).
Qed.

Lemma byte_round x : byte_of (Byte.to_N x) = Some x.
Proof. apply Byte.of_to_N. Qed.

Lemma byte_bound x : (Byte.to_N x < 256)%N.
Proof. pose proof (Byte.to_N_bounded x). lia. Qed.

Ltac by_quotients := zify; Z.to_euclidean_division_equations; lia.

Lemma first_byte x y :
  (x < 256 -> y < 256 ->
   (x / 4) * 4 + ((x mod 4) * 16 + y / 16) / 16 = x)%N.
Proof. intros. by_quotients. Qed.

Lemma second_byte x y z :
  (x < 256 -> y < 256 -> z < 256 ->
   (((x mod 4) * 16 + y / 16) mod 16) * 16
   + ((y mod 16) * 4 + z / 64) / 4 = y)%N.
Proof. intros. by_quotients. Qed.

Lemma third_byte y z :
  (y < 256 -> z < 256 ->
   (((y mod 16) * 4 + z / 64) mod 4) * 64 + z mod 64 = z)%N.
Proof. intros. by_quotients. Qed.

Lemma last_byte_of_one x :
  (x < 256 -> (x / 4) * 4 + ((x mod 4) * 16) / 16 = x)%N.
Proof. intros. by_quotients. Qed.

Lemma last_byte_of_two x y :
  (x < 256 -> y < 256 ->
   (((x mod 4) * 16 + y / 16) mod 16) * 16 + ((y mod 16) * 4) / 4 = y)%N.
Proof. intros. by_quotients. Qed.

Lemma sextet2_alone x : (x < 256 -> (x mod 4) * 16 < 64)%N.
Proof. intros. by_quotients. Qed.

Lemma sextet3_alone y : (y < 256 -> (y mod 16) * 4 < 64)%N.
Proof. intros. by_quotients. Qed.

Lemma sextet1 x : (x < 256 -> x / 4 < 64)%N.
Proof. intros. by_quotients. Qed.

Lemma sextet2 x y : (x < 256 -> y < 256 -> (x mod 4) * 16 + y / 16 < 64)%N.
Proof. intros. by_quotients. Qed.

Lemma sextet3 y z : (y < 256 -> z < 256 -> (y mod 16) * 4 + z / 64 < 64)%N.
Proof. intros. by_quotients. Qed.

Lemma sextet4 z : (z mod 64 < 64)%N.
Proof. by_quotients. Qed.

Lemma decode_encode bs : decode (encode bs) = Some bs.
Proof.
  induction bs as [bs IH] using (induction_ltof1 _ (@length Byte.byte)).
  unfold ltof in IH.
  destruct bs as [|a [|b [|c rest]]]; [done|..].
  - pose proof (byte_bound a) as Ha.
    cbn [encode decode].
    rewrite !undigit_digit
      by first [by apply sextet1 | by apply sextet2_alone].
    rewrite (last_byte_of_one _ Ha), byte_round.
    by rewrite !Ascii.eqb_refl.
  - pose proof (byte_bound a) as Ha. pose proof (byte_bound b) as Hb.
    cbn [encode decode].
    rewrite !undigit_digit
      by first [by apply sextet1 | by apply sextet2].
    rewrite (first_byte _ _ Ha Hb), byte_round, Ascii.eqb_refl.
    rewrite (digit_not_pad _ (sextet3_alone _ Hb)).
    rewrite undigit_digit by (by apply sextet3_alone).
    by rewrite (last_byte_of_two _ _ Ha Hb), byte_round.
  - pose proof (byte_bound a) as Ha. pose proof (byte_bound b) as Hb.
    pose proof (byte_bound c) as Hc.
    cbn [encode decode].
    rewrite !undigit_digit
      by first [by apply sextet1 | by apply sextet2 | by apply sextet3
               | apply sextet4].
    rewrite (first_byte _ _ Ha Hb), byte_round.
    rewrite (digit_not_pad _ (sextet4 _)).
    rewrite (second_byte _ _ _ Ha Hb Hc), (third_byte _ _ Hb Hc), !byte_round.
    by rewrite IH by (cbn; lia).
Qed.

End Base64Facts.

(** The base64 text that goes into the request loses nothing: two
    buffers with the same payload are the same buffer, and the payload is
    four code units for every three bytes, rounded up. *)
Theorem base64_payload_is_faithful a b :
  (Base64.encode a = Base64.encode b -> a = b)
  /\ String.length (Base64.encode a) = 4 * ((length a + 2) / 3).
Proof.
  split.
  - intros H. apply (f_equal Base64Inverse.decode) in H.
    rewrite !Base64Facts.decode_encode in H. by injection H.
  - induction a as [a IH] using (induction_ltof1 _ (@length Byte.byte)).
    unfold ltof in IH.
    destruct a as [|x [|y [|z rest]]]; [done..|].
    cbn [Base64.encode String.length length].
    rewrite IH by (cbn; lia).
    replace (S (S (S (length rest))) + 2) with (length rest + 2 + 1 * 3) by lia.
    rewrite Nat.div_add by done. lia.
Qed.

(** ** More on the recorder component *)

(** [processAudio] never throws and always comes back with [isProcessing]
    cleared (when there was a recording to process); whatever the
    handlers do, it leaves the recording, its format, the recorder and the
    microphone tracks as they were. *)
Theorem processAudio_settles h cfg s :
  let r := processAudio h cfg s in
  (exists exit, fst r = Return exit
                /\ (exit = NoRecording <-> audioBlob s = None))
  /\ isProcessing (snd r)
     = match audioBlob s with Some _ => false | None => isProcessing s end
  /\ isRecording (snd r) = isRecording s
  /\ audioBlob (snd r) = audioBlob s
  /\ audioFormat (snd r) = audioFormat s
  /\ mediaRecorderRef (snd r) = mediaRecorderRef s
  /\ live_tracks (snd r) = live_tracks s.
Proof.
  destruct s as [rec prc ab tx an fmt ref chunks live tr w].
  unfold processAudio, transcribeAudio, generateBehavioralAnswer.
  destruct ab as [blob|]; ui_eval; [|by split; [exists NoRecording|]].
  destruct (transcribe_audio h cfg (blob_data blob) _ w) as [[res|e] w1];
    ui_eval.
  - destruct (truthy (trim (text res))); ui_eval.
    + destruct (generate_behavioral_answer h cfg (text res) w1)
        as [[ans|e] w2]; ui_eval; cbn [fst snd];
        (split; [eexists; split; [reflexivity|split; discriminate]|done]).
    + cbn [fst snd].
      split; [eexists; split; [reflexivity|split; discriminate]|done].
  - cbn [fst snd].
    split; [eexists; split; [reflexivity|split; discriminate]|done].
Qed.

(** A run that goes well reports its result once: the transcript and the
    answer are stored, [onTranscriptionComplete] is called exactly once
    with the two, between the call to the answer handler and the success
    notice. *)
Theorem processAudio_reports_once h cfg s blob res ans :
  audioBlob s = Some blob ->
  let run1 := transcribe_audio h cfg (blob_data blob)
                ("recording." +:+ audioFormat s) (main s) in
  fst run1 = Return res ->
  trim (text res) <> "" ->
  fst (generate_behavioral_answer h cfg (text res) (snd run1)) = Return ans ->
  let r := processAudio h cfg s in
  fst r = Return Finished
  /\ rtrace (snd r) =
     rtrace s ++
     [processing_notice;
      InvokeTranscribe (blob_data blob) ("recording." +:+ audioFormat s);
      InvokeGenerate (text res);
      TranscriptionComplete (text res) (answer ans);
      Toast "Success" "Audio processed and answer generated!" "success"]
  /\ transcription (snd r) = text res
  /\ answer_shown (snd r) = answer ans
  /\ main (snd r)
     = snd (generate_behavioral_answer h cfg (text res) (snd run1)).
Proof.
  intros Hb run1 Hres Htrim Hans. subst run1.
  destruct s as [rec prc ab tx an fmt ref chunks live tr w].
  cbn [audioBlob audioFormat main] in *. subst ab.
  unfold processAudio, transcribeAudio, generateBehavioralAnswer. ui_eval.
  destruct (transcribe_audio h cfg (blob_data blob) _ w) as [r1 w1].
  cbn [fst snd] in *. subst r1. ui_eval.
  destruct (trim (text res)) as [|c t] eqn:Ht; [done|]. cbn [truthy]. ui_eval.
  destruct (generate_behavioral_answer h cfg (text res) w1) as [r2 w2].
  cbn [fst snd] in *. subst r2. ui_eval. cbn [fst snd].
  by rewrite <- !app_assoc.
Qed.

Lemma processAudio_reports_once_witness :
  let s := recorded wav_bytes "audio/wav" "wav" in
  let res := mkTranscription "Tell me about a time you led a team." in
  let ans := mkAnswer "Tell me about a time you led a team." in
  let run1 := transcribe_audio sample_host openai_cfg wav_bytes
                ("recording." +:+ audioFormat s) (main s) in
  let r := processAudio sample_host openai_cfg s in
  audioBlob s = Some (mkBlob wav_bytes "audio/wav")
  /\ fst run1 = Return res
  /\ trim (text res) <> ""
  /\ fst (generate_behavioral_answer sample_host openai_cfg (text res)
            (snd run1)) = Return ans
  /\ fst r = Return Finished
  /\ rtrace (snd r) =
     rtrace s ++
     [processing_notice;
      InvokeTranscribe wav_bytes ("recording." +:+ audioFormat s);
      InvokeGenerate (text res);
      TranscriptionComplete (text res) (answer ans);
      Toast "Success" "Audio processed and answer generated!" "success"]
  /\ transcription (snd r) = text res
  /\ answer_shown (snd r) = answer ans
  /\ main (snd r)
     = snd (generate_behavioral_answer sample_host openai_cfg (text res)
              (snd run1)).
Proof.
  intros s res ans run1 r.
  split; [reflexivity|]. split; [vm_compute; reflexivity|].
  split; [vm_compute; discriminate|]. split; [vm_compute; reflexivity|].
  apply (processAudio_reports_once sample_host openai_cfg s
           (mkBlob wav_bytes "audio/wav") res ans).
  - reflexivity.
  - vm_compute; reflexivity.
  - vm_compute; discriminate.
  - vm_compute; reflexivity.
Defined.

(** When the transcription handler throws, [processAudio] catches it: it
    shows the failure notice, never calls the answer handler or
    [onTranscriptionComplete], and keeps the transcript and answer it
    showed before. *)
Theorem processAudio_catches_transcription_failure h cfg s blob e :
  audioBlob s = Some blob ->
  fst (transcribe_audio h cfg (blob_data blob)
         ("recording." +:+ audioFormat s) (main s)) = Throw e ->
  let r := processAudio h cfg s in
  fst r = Return (Caught e)
  /\ rtrace (snd r) =
     rtrace s ++
     [processing_notice;
      InvokeTranscribe (blob_data blob) ("recording." +:+ audioFormat s);
      failure_notice]
  /\ transcription (snd r) = transcription s
  /\ answer_shown (snd r) = answer_shown s
  /\ isProcessing (snd r) = false.
Proof.
  intros Hb Hres.
  destruct s as [rec prc ab tx an fmt ref chunks live tr w].
  cbn [audioBlob audioFormat main] in *. subst ab.
  unfold processAudio, transcribeAudio, generateBehavioralAnswer. ui_eval.
  destruct (transcribe_audio h cfg (blob_data blob) _ w) as [r1 w1].
  cbn [fst snd] in *. subst r1. ui_eval. cbn [fst snd].
  by rewrite <- !app_assoc.
Qed.

Lemma processAudio_catches_transcription_failure_witness :
  let s := recorded wav_bytes "audio/wav" "wav" in
  let r := processAudio refusing_host openai_cfg s in
  audioBlob s = Some (mkBlob wav_bytes "audio/wav")
  /\ fst (transcribe_audio refusing_host openai_cfg wav_bytes
            ("recording." +:+ audioFormat s) (main s))
     = Throw "401 Incorrect API key provided"
  /\ fst r = Return (Caught "401 Incorrect API key provided")
  /\ rtrace (snd r) =
     rtrace s ++
     [processing_notice;
      InvokeTranscribe wav_bytes ("recording." +:+ audioFormat s);
      failure_notice]
  /\ transcription (snd r) = transcription s
  /\ answer_shown (snd r) = answer_shown s
  /\ isProcessing (snd r) = false.
Proof.
  intros s r. split; [reflexivity|]. split; [vm_compute; reflexivity|].
  apply (processAudio_catches_transcription_failure refusing_host openai_cfg
           s (mkBlob wav_bytes "audio/wav")
           "401 Incorrect API key provided").
  - reflexivity.
  - vm_compute; reflexivity.
Defined.

(** When the answer handler throws after a good transcription, the new
    transcript is already stored and stays; the answer shown is still the
    one of the run before, [onTranscriptionComplete] is not called, and the
    failure notice is shown. *)
Theorem processAudio_keeps_transcript_on_generation_failure
    h cfg s blob res e :
  audioBlob s = Some blob ->
  let run1 := transcribe_audio h cfg (blob_data blob)
                ("recording." +:+ audioFormat s) (main s) in
  fst run1 = Return res ->
  trim (text res) <> "" ->
  fst (generate_behavioral_answer h cfg (text res) (snd run1)) = Throw e ->
  let r := processAudio h cfg s in
  fst r = Return (Caught e)
  /\ rtrace (snd r) =
     rtrace s ++
     [processing_notice;
      InvokeTranscribe (blob_data blob) ("recording." +:+ audioFormat s);
      InvokeGenerate (text res);
      failure_notice]
  /\ transcription (snd r) = text res
  /\ answer_shown (snd r) = answer_shown s
  /\ isProcessing (snd r) = false.
Proof.
  intros Hb run1 Hres Htrim Hans. subst run1.
  destruct s as [rec prc ab tx an fmt ref chunks live tr w].
  cbn [audioBlob audioFormat main] in *. subst ab.
  unfold processAudio, transcribeAudio, generateBehavioralAnswer. ui_eval.
  destruct (transcribe_audio h cfg (blob_data blob) _ w) as [r1 w1].
  cbn [fst snd] in *. subst r1. ui_eval.
  destruct (trim (text res)) as [|c t] eqn:Ht; [done|]. cbn [truthy]. ui_eval.
  destruct (generate_behavioral_answer h cfg (text res) w1) as [r2 w2].
  cbn [fst snd] in *. subst r2. ui_eval. cbn [fst snd].
  by rewrite <- !app_assoc.
Qed.

Lemma processAudio_keeps_transcript_on_generation_failure_witness :
  let s := recorded wav_bytes "audio/wav" "wav" in
  let res := mkTranscription "Tell me about a time you led a team." in
  let run1 := transcribe_audio half_host openrouter_cfg wav_bytes
                ("recording." +:+ audioFormat s) (main s) in
  let r := processAudio half_host openrouter_cfg s in
  audioBlob s = Some (mkBlob wav_bytes "audio/wav")
  /\ fst run1 = Return res
  /\ trim (text res) <> ""
  /\ fst (generate_behavioral_answer half_host openrouter_cfg (text res)
            (snd run1)) = Throw "429 You exceeded your current quota"
  /\ fst r = Return (Caught "429 You exceeded your current quota")
  /\ rtrace (snd r) =
     rtrace s ++
     [processing_notice;
      InvokeTranscribe wav_bytes ("recording." +:+ audioFormat s);
      InvokeGenerate (text res);
      failure_notice]
  /\ transcription (snd r) = text res
  /\ answer_shown (snd r) = answer_shown s
  /\ isProcessing (snd r) = false.
Proof.
  intros s res run1 r.
  split; [reflexivity|]. split; [vm_compute; reflexivity|].
  split; [vm_compute; discriminate|]. split; [vm_compute; reflexivity|].
  apply (processAudio_keeps_transcript_on_generation_failure half_host
           openrouter_cfg s (mkBlob wav_bytes "audio/wav") res
           "429 You exceeded your current quota").
  - reflexivity.
  - vm_compute; reflexivity.
  - vm_compute; discriminate.
  - vm_compute; reflexivity.
Defined.

(** [stopRecording] outside a recording does nothing: when the component
    is not recording, or has no recorder, the state is unchanged and no
    notice is shown. *)
Theorem stopRecording_outside_recording br s :
  isRecording s = false \/ mediaRecorderRef s = None ->
  stopRecording br s = (Return tt, s).
Proof.
  intros H. destruct s as [rec prc ab tx an fmt ref chunks live tr w].
  cbn [isRecording mediaRecorderRef] in H.
  unfold stopRecording. ui_eval.
  destruct H as [-> | ->]; [by destruct ref|done].
Qed.

Lemma stopRecording_outside_recording_witness :
  (isRecording (recorded wav_bytes "audio/wav" "wav") = false
   \/ mediaRecorderRef (recorded wav_bytes "audio/wav" "wav") = None)
  /\ stopRecording webm_browser (recorded wav_bytes "audio/wav" "wav")
     = (Return tt, recorded wav_bytes "audio/wav" "wav").
Proof.
  split; [left; reflexivity|].
  apply (stopRecording_outside_recording webm_browser
           (recorded wav_bytes "audio/wav" "wav")).
  left; reflexivity.
Defined.

(** When the microphone is refused, [startRecording] does not throw: it
    shows its failure notice and nothing else changes, no track is
    acquired, no recorder is kept, the component is not recording. *)
Theorem startRecording_refused br s e :
  getUserMedia br = inl e ->
  let r := startRecording br s in
  fst r = Return tt
  /\ rtrace (snd r) = rtrace s ++ [start_failure_notice]
  /\ live_tracks (snd r) = live_tracks s
  /\ isRecording (snd r) = isRecording s
  /\ mediaRecorderRef (snd r) = mediaRecorderRef s
  /\ audioBlob (snd r) = audioBlob s.
Proof.
  intros Hg. destruct s as [rec prc ab tx an fmt ref chunks live tr w].
  unfold startRecording, acquire_stream. rewrite Hg. ui_eval. done.
Qed.

Lemma startRecording_refused_witness :
  let br := mkBrowser (inl "NotAllowedError") (fun _ => true) None [] in
  let r := startRecording br fresh_sys in
  getUserMedia br = inl "NotAllowedError"
  /\ fst r = Return tt
  /\ rtrace (snd r) = rtrace fresh_sys ++ [start_failure_notice]
  /\ live_tracks (snd r) = live_tracks fresh_sys
  /\ isRecording (snd r) = isRecording fresh_sys
  /\ mediaRecorderRef (snd r) = mediaRecorderRef fresh_sys
  /\ audioBlob (snd r) = audioBlob fresh_sys.
Proof.
  intros br r. split; [reflexivity|].
  apply (startRecording_refused br fresh_sys "NotAllowedError").
  reflexivity.
Defined.

(** [startRecording] when everything is granted. *)
Lemma startRecording_ok br s tracks :
  getUserMedia br = inr tracks ->
  isTypeSupported br (fst (spec_choose (isTypeSupported br))) = true ->
  start_fault br = None ->
  exists tr,
    startRecording br s =
    (Return tt,
     mkSys true (isProcessing s) (audioBlob s) (transcription s)
       (answer_shown s) (audioFormat s)
       (Some (mkRecorder tracks (fst (spec_choose (isTypeSupported br)))
                (snd (spec_choose (isTypeSupported br)))))
       [] (live_tracks s ++ tracks) tr (main s)).
Proof.
  intros Hg Hs Hf. destruct s as [rec prc ab tx an fmt ref chunks live tr w].
  unfold startRecording, acquire_stream. rewrite Hg.
  unfold Eff.try_catch at 1. unfold Eff.bind at 1 2.
  ui_eval. rewrite choose_format_run.
  unfold new_MediaRecorder, recorder_start. rewrite Hf.
  destruct (fallback_reached _); ui_eval; rewrite Hs; ui_eval; by eexists.
Qed.

Lemma deliver_run chunks s :
  deliver chunks s =
  (Return tt,
   mkSys (isRecording s) (isProcessing s) (audioBlob s) (transcription s)
     (answer_shown s) (audioFormat s) (mediaRecorderRef s)
     (audioChunksRef s
      ++ List.filter (fun data => (0 <? length data)%nat) chunks)
     (live_tracks s) (rtrace s) (main s)).
Proof.
  revert s. induction chunks as [|data rest IH];
    intros [rec prc ab tx an fmt ref cs live tr w].
  - cbn [deliver List.filter]. ui_eval. by rewrite app_nil_r.
  - cbn [deliver List.filter]. unfold Eff.bind, ondataavailable.
    destruct (0 <? length data)%nat; ui_eval; rewrite IH; ui_eval;
      [by rewrite <- app_assoc|done].
Qed.

Lemma concat_nonempty (chunks : list bytes) :
  concat (List.filter (fun data => (0 <? length data)%nat) chunks)
  = concat chunks.
Proof.
  induction chunks as [|data rest IH]; [done|].
  destruct data as [|b data]; simpl; by rewrite IH.
Qed.

(** What a recording holds: after a start that goes well, the chunks the
    recorder delivers and the one it flushes on stop make up the blob,
    in the order they came and under the MIME type that was chosen, and
    nothing of an earlier recording is in it. *)
Theorem recording_is_what_was_delivered br s tracks chunks :
  getUserMedia br = inr tracks ->
  isTypeSupported br (fst (spec_choose (isTypeSupported br))) = true ->
  start_fault br = None ->
  let s1 := snd (startRecording br s) in
  let s2 := snd (deliver chunks s1) in
  let s3 := snd (stopRecording br s2) in
  audioBlob s3
  = Some (mkBlob (concat chunks ++ final_chunk br)
            (fst (spec_choose (isTypeSupported br))))
  /\ audioFormat s3 = snd (spec_choose (isTypeSupported br)).
Proof.
  intros Hg Hs Hf s1 s2 s3.
  destruct (startRecording_ok br s tracks Hg Hs Hf) as [tr Hs1].
  unfold s3, s2, s1. rewrite Hs1. cbn [snd]. rewrite deliver_run. cbn [snd].
  erewrite stopRecording_run by reflexivity.
  cbn [snd audioBlob audioFormat audioChunksRef rec_mimeType
       rec_fileExtension app].
  split; [|done]. do 2 f_equal.
  destruct (0 <? length (final_chunk br))%nat eqn:Hlen.
  - rewrite concat_app, concat_nonempty. cbn. by rewrite app_nil_r.
  - rewrite concat_nonempty.
    destruct (final_chunk br); [by rewrite app_nil_r|done].
Qed.

Lemma recording_is_what_was_delivered_witness :
  let chunks := [[Byte.x1a; Byte.x45]; []; [Byte.xdf]] in
  let s1 := snd (startRecording webm_browser
                   (recorded wav_bytes "audio/wav" "wav")) in
  let s2 := snd (deliver chunks s1) in
  let s3 := snd (stopRecording webm_browser s2) in
  getUserMedia webm_browser = inr [0]
  /\ isTypeSupported webm_browser
       (fst (spec_choose (isTypeSupported webm_browser))) = true
  /\ start_fault webm_browser = None
  /\ audioBlob s3
     = Some (mkBlob (concat chunks ++ final_chunk webm_browser)
               (fst (spec_choose (isTypeSupported webm_browser))))
  /\ audioFormat s3 = snd (spec_choose (isTypeSupported webm_browser)).
Proof.
  intros chunks s1 s2 s3.
  split; [reflexivity|]. split; [reflexivity|]. split; [reflexivity|].
  apply (recording_is_what_was_delivered webm_browser
           (recorded wav_bytes "audio/wav" "wav") [0] chunks);
    reflexivity.
Defined.

(** Stopping a recording stops the tracks of its stream and no others:
    afterwards a track is live exactly when it was live before and does
    not belong to the recorder's stream. *)
Theorem stopRecording_releases_its_stream br s r :
  mediaRecorderRef s = Some r ->
  isRecording s = true ->
  let s' := snd (stopRecording br s) in
  isRecording s' = false
  /\ forall t, t ∈ live_tracks s' <-> t ∈ live_tracks s /\ t ∉ rec_stream r.
Proof.
  intros Hr Hrec s'. unfold s'.
  rewrite (stopRecording_run br s r Hr Hrec). cbn [snd isRecording live_tracks].
  split; [done|]. intros t. rewrite list_elem_of_filter. tauto.
Qed.

Lemma stopRecording_releases_its_stream_witness :
  let s := snd (startRecording webm_browser fresh_sys) in
  let r := mkRecorder [0] "audio/webm;codecs=opus" "webm" in
  let s' := snd (stopRecording webm_browser s) in
  mediaRecorderRef s = Some r
  /\ isRecording s = true
  /\ isRecording s' = false
  /\ forall t, t ∈ live_tracks s' <-> t ∈ live_tracks s /\ t ∉ rec_stream r.
Proof.
  intros s r s'. split; [reflexivity|]. split; [reflexivity|].
  apply (stopRecording_releases_its_stream webm_browser s r); reflexivity.
Defined.

(** ** The other recorders *)

(** [Header.tsx] processes a recording as [AudioRecorder.tsx] processes
    one saved as WebM: given its callback, its [processAudio] is the same
    run as the one of [AudioRecorder] on a state whose format is [webm]. *)
Theorem Header_processes_as_webm h cfg s :
  audioFormat s = "webm" ->
  Header_processAudio h cfg true s = processAudio h cfg s.
Proof.
  intros Hfmt. destruct s as [rec prc ab tx an fmt ref chunks live tr w].
  cbn [audioFormat] in Hfmt. subst fmt. reflexivity.
Qed.

Lemma Header_processes_as_webm_witness :
  audioFormat (recorded webm_bytes "audio/webm" "webm") = "webm"
  /\ Header_processAudio sample_host openrouter_cfg true
       (recorded webm_bytes "audio/webm" "webm")
     = processAudio sample_host openrouter_cfg
         (recorded webm_bytes "audio/webm" "webm").
Proof.
  split; [reflexivity|].
  apply (Header_processes_as_webm sample_host openrouter_cfg
           (recorded webm_bytes "audio/webm" "webm")).
  reflexivity.
Defined.

(** [QueueCommands.tsx] does to the handlers and shows to the user what
    [Header.tsx] does, and keeps no transcript or answer of its own. *)
Theorem QueueCommands_follows_Header h cfg cb s :
  let q := QueueCommands_processAudio h cfg cb s in
  let r := Header_processAudio h cfg cb s in
  fst q = fst r
  /\ rtrace (snd q) = rtrace (snd r)
  /\ main (snd q) = main (snd r)
  /\ isProcessing (snd q) = isProcessing (snd r)
  /\ transcription (snd q) = transcription s
  /\ answer_shown (snd q) = answer_shown s.
Proof.
  destruct s as [rec prc ab tx an fmt ref chunks live tr w].
  unfold QueueCommands_processAudio, Header_processAudio, transcribeAudio,
    generateBehavioralAnswer.
  destruct ab as [blob|]; ui_eval; [|done].
  destruct (transcribe_audio h cfg (blob_data blob) _ w) as [[res|e] w1];
    ui_eval; [|done].
  destruct (truthy (trim (text res))); ui_eval; [|done].
  destruct (generate_behavioral_answer h cfg (text res) w1) as [[ans|e] w2];
    ui_eval; [|done].
  destruct cb; ui_eval; done.
Qed.

Lemma generate_extends h cfg question w :
  exists evs,
    trace (snd (generate_behavioral_answer h cfg question w)) = trace w ++ evs.
Proof.
  destruct (hasApiKey cfg) eqn:Hk;
    [destruct (apiKey cfg) as [[|c key]|] eqn:Ha|].
  - exists []. unfold generate_behavioral_answer.
    rewrite try_catch_rethrow, Hk, Ha. cbn. by rewrite app_nil_r.
  - assert (configured cfg (String c key)) as Hc by (by repeat split).
    rewrite (generate_configured h cfg _ question w Hc). by eexists.
  - exists []. unfold generate_behavioral_answer.
    rewrite try_catch_rethrow, Hk, Ha. cbn. by rewrite app_nil_r.
  - exists []. unfold generate_behavioral_answer.
    rewrite try_catch_rethrow, Hk. cbn. by rewrite app_nil_r.
Qed.

(** Both always name the recording [recording.webm]; so with an
    OpenRouter key every run of theirs on a recording starts a
    conversion in the main process, whatever the microphone produced. *)
Theorem other_recorders_always_convert h cfg key cb s blob :
  configured cfg key ->
  startsWith key "sk-or-" = true ->
  audioBlob s = Some blob ->
  (exists evs,
      trace (main (snd (Header_processAudio h cfg cb s)))
      = trace (main s) ++ evs
      /\ conversion_triggered h evs = true)
  /\ (exists evs,
      trace (main (snd (QueueCommands_processAudio h cfg cb s)))
      = trace (main s) ++ evs
      /\ conversion_triggered h evs = true).
Proof.
  intros Hc Hor Hb.
  destruct (QueueCommands_follows_Header h cfg cb s) as (_ & _ & -> & _).
  assert (exists evs,
            trace (main (snd (Header_processAudio h cfg cb s)))
            = trace (main s) ++ evs
            /\ conversion_triggered h evs = true) as H; [|by split].
  destruct s as [rec prc ab tx an fmt ref chunks live tr w].
  cbn [audioBlob main] in *. subst ab.
  unfold Header_processAudio, transcribeAudio, generateBehavioralAnswer.
  ui_eval.
  pose proof (transcribe_audio_configured h cfg key (blob_data blob)
                "recording.webm" w Hc) as Hrun.
  rewrite Hor in Hrun.
  change (includes (toLowerCase "recording.webm") "webm") with true in Hrun.
  destruct (openrouter_webm_events h key (blob_data blob)
              (declared_format "recording.webm") w) as (evs & Ht & Hconv & _).
  rewrite <- Hrun in Ht. clear Hrun.
  destruct (transcribe_audio h cfg (blob_data blob) _ w) as [[res|e] w1];
    cbn [snd] in Ht; ui_eval; [|by exists evs].
  destruct (truthy (trim (text res))); ui_eval; [|by exists evs].
  destruct (generate_extends h cfg (text res) w1) as [evs2 Ht2].
  destruct (generate_behavioral_answer h cfg (text res) w1) as [[ans|e] w2];
    cbn [snd] in Ht2; ui_eval; try destruct cb; ui_eval; cbn [snd].
  all: exists (evs ++ evs2); split; [by rewrite Ht2, Ht, app_assoc|].
  all: unfold conversion_triggered in *; by rewrite existsb_app, Hconv.
Qed.

Lemma other_recorders_always_convert_witness :
  let s := recorded wav_bytes "audio/webm" "webm" in
  configured openrouter_cfg "sk-or-v1-abc"
  /\ startsWith "sk-or-v1-abc" "sk-or-" = true
  /\ audioBlob s = Some (mkBlob wav_bytes "audio/webm")
  /\ (exists evs,
        trace (main (snd (Header_processAudio sample_host openrouter_cfg
                            true s)))
        = trace (main s) ++ evs
        /\ conversion_triggered sample_host evs = true)
  /\ (exists evs,
        trace (main (snd (QueueCommands_processAudio sample_host
                            openrouter_cfg true s)))
        = trace (main s) ++ evs
        /\ conversion_triggered sample_host evs = true).
Proof.
  intros s. split; [repeat split; discriminate|]. split; [reflexivity|].
  split; [reflexivity|].
  apply (other_recorders_always_convert sample_host openrouter_cfg
           "sk-or-v1-abc" true s (mkBlob wav_bytes "audio/webm")).
  - repeat split; discriminate.
  - reflexivity.
  - reflexivity.
Defined.

(** ** Credits and screenshots *)

Ltac sh_eval :=
  cbv beta iota zeta delta
    [Sh.send Sh.call Sh.count_js Sh.set_credits
     js_set_credits js_get_credits notify_key_invalid processScreenshots
     deleteScreenshot
     Eff.try_catch Eff.try_finally Eff.bind Eff.throw Eff.ret Eff.modify
     Eff.get
     has_window destroyed CREDITS sent js_runs view screenshotQueue
     extraScreenshotQueue dep_calls].

(** The ways [decrement-credits] can go. *)
Lemma decrement_credits_run sh s :
  decrement_credits sh s =
  (Return tt,
   if negb (has_window s) then s
   else
     let bump k v msgs :=
       mkShell (has_window s) (destroyed s) v (sent s ++ msgs)
         (k + js_runs s) (view s) (screenshotQueue s)
         (extraScreenshotQueue s) (dep_calls s) in
     match js_fault sh (js_runs s), CREDITS s with
     | None, Some c =>
         if (0 <? c)%Z then
           match js_fault sh (S (js_runs s)) with
           | None => bump 2 (Some (JsNumber.minus_one c))
                       [CreditsUpdated (JsNumber.minus_one c)]
           | Some _ => bump 2 (CREDITS s) []
           end
         else bump 1 (CREDITS s) []
     | _, _ => bump 1 (CREDITS s) []
     end).
Proof.
  destruct s as [hw ds cr msgs n v q xq calls].
  unfold decrement_credits. sh_eval. destruct hw; cbn [negb]; [|done].
  destruct (js_fault sh n); cbn [plus]; [by rewrite app_nil_r|].
  destruct cr as [c|]; [|by rewrite app_nil_r].
  destruct (0 <? c)%Z; [|by rewrite app_nil_r].
  destruct (js_fault sh (S n)); cbn [plus]; [by rewrite app_nil_r|done].
Qed.

(** Up to [2^53] the decrement is exact. *)
Lemma minus_one_exact c :
  (c <= JsNumber.two53)%Z -> JsNumber.minus_one c = (c - 1)%Z.
Proof.
  intros Hc. unfold JsNumber.minus_one.
  by destruct (Z.leb_spec c JsNumber.two53); [|lia].
Qed.

(** Above it the decrement takes two or nothing, and never more. *)
Lemma minus_one_bounds c :
  (0 < c)%Z ->
  (0 <= JsNumber.minus_one c <= c)%Z /\ (c - 2 <= JsNumber.minus_one c)%Z.
Proof.
  intros Hc. unfold JsNumber.minus_one.
  destruct (Z.leb_spec c JsNumber.two53); [lia|].
  unfold JsNumber.two53 in *.
  destruct ((c <? 2 * 9007199254740992)%Z && Z.odd (c / 2)); lia.
Qed.

(** [decrement-credits] never throws and never overdraws, whether or not
    the page can be reached: a count that is not negative is left at a
    count that is not negative and not above it.  For a count up to
    [2^53], where the subtraction of doubles is exact, the count is left
    as it was or one less; above that the subtraction rounds, and the
    count is left as it was or at most two less. *)
Theorem decrement_never_overdraws sh s c :
  CREDITS s = Some c ->
  (0 <= c)%Z ->
  let r := decrement_credits sh s in
  fst r = Return tt
  /\ exists c', CREDITS (snd r) = Some c'
                /\ (0 <= c' <= c)%Z
                /\ (c - 2 <= c')%Z
                /\ ((c <= JsNumber.two53)%Z -> c' = c \/ c' = (c - 1)%Z).
Proof.
  intros Hc Hpos. rewrite decrement_credits_run. cbn [fst snd].
  split; [done|].
  assert (exists c', Some c = Some c' /\ (0 <= c' <= c)%Z /\ (c - 2 <= c')%Z
            /\ ((c <= JsNumber.two53)%Z -> c' = c \/ c' = (c - 1)%Z)) as Hsame.
  { exists c. split; [done|]. split; [lia|]. split; [lia|auto]. }
  rewrite Hc.
  destruct (has_window s); cbn [negb]; [|by rewrite Hc].
  destruct (js_fault sh (js_runs s)); cbn [CREDITS]; [done|].
  destruct (0 <? c)%Z eqn:Hlt; cbn [CREDITS]; [|done].
  apply Z.ltb_lt in Hlt.
  destruct (js_fault sh (S (js_runs s))); cbn [CREDITS]; [done|].
  exists (JsNumber.minus_one c). split; [done|].
  destruct (minus_one_bounds c Hlt) as [Hb Hl].
  split; [done|]. split; [done|].
  intros Hs. right. by apply minus_one_exact.
Qed.

Lemma decrement_never_overdraws_witness :
  let s := shell_with (Some 3%Z) [] [] "queue" in
  let r := decrement_credits calm_shell s in
  CREDITS s = Some 3%Z
  /\ (0 <= 3)%Z
  /\ fst r = Return tt
  /\ exists c', CREDITS (snd r) = Some c'
                /\ (0 <= c' <= 3)%Z
                /\ (3 - 2 <= c')%Z
                /\ ((3 <= JsNumber.two53)%Z -> c' = 3%Z \/ c' = (3 - 1)%Z).
Proof.
  intros s r. split; [reflexivity|]. split; [lia|].
  apply (decrement_never_overdraws calm_shell s 3%Z).
  all: first [reflexivity | lia].
Defined.

(** Spending credits one by one: when the page answers, [n] decrements
    of a count [c] between 0 and [2^53] leave [max 0 (c - n)], and the
    page is told each new count once, from [c - 1] down, and nothing once
    the count is zero. *)
Theorem decrement_times_counts_down sh n s c :
  (forall k, js_fault sh k = None) ->
  has_window s = true ->
  CREDITS s = Some c ->
  (0 <= c <= JsNumber.two53)%Z ->
  let r := decrement_times sh n s in
  fst r = Return tt
  /\ CREDITS (snd r) = Some (Z.max 0 (c - Z.of_nat n))
  /\ sent (snd r)
     = sent s
       ++ ((fun i => CreditsUpdated (c - Z.of_nat i))
             <$> seq 1 (Nat.min n (Z.to_nat c))).
Proof.
  intros Hcalm. revert s c. induction n as [|n IH]; intros s c Hw Hc Hpos.
  - cbn. rewrite app_nil_r. split; [done|]. split; [|done].
    rewrite Hc. f_equal. lia.
  - cbn [decrement_times]. unfold Eff.bind.
    rewrite decrement_credits_run, Hw, !Hcalm, Hc. cbn [negb].
    destruct (0 <? c)%Z eqn:Hlt.
    + apply Z.ltb_lt in Hlt.
      rewrite (minus_one_exact c) by lia.
      match goal with
      | |- context [decrement_times sh n ?s1] =>
          destruct (IH s1 (c - 1)%Z eq_refl eq_refl ltac:(lia))
            as (Hr & Hcr & Hs)
      end.
      split; [done|]. split.
      * rewrite Hcr. f_equal. lia.
      * rewrite Hs. cbn [sent]. rewrite <- app_assoc. f_equal.
        replace (Nat.min (S n) (Z.to_nat c))
          with (S (Nat.min n (Z.to_nat (c - 1)))) by lia.
        cbn [seq fmap list_fmap app]. f_equal.
        rewrite <- (fmap_S_seq 1), <- list_fmap_compose.
        apply list_fmap_ext. intros _ i _. cbn. f_equal. lia.
    + apply Z.ltb_ge in Hlt. assert (c = 0%Z) as -> by lia.
      match goal with
      | |- context [decrement_times sh n ?s1] =>
          destruct (IH s1 0%Z eq_refl eq_refl ltac:(unfold JsNumber.two53; lia))
            as (Hr & Hcr & Hs)
      end.
      split; [done|]. split.
      * rewrite Hcr. f_equal. lia.
      * rewrite Hs. cbn [sent]. rewrite app_nil_r.
        by rewrite !Nat.min_0_r.
Qed.

Lemma decrement_times_counts_down_witness :
  let s := shell_with (Some 2%Z) [] [] "queue" in
  let r := decrement_times calm_shell 5 s in
  (forall k, js_fault calm_shell k = None)
  /\ has_window s = true
  /\ CREDITS s = Some 2%Z
  /\ (0 <= 2 <= JsNumber.two53)%Z
  /\ fst r = Return tt
  /\ CREDITS (snd r) = Some (Z.max 0 (2 - Z.of_nat 5))
  /\ sent (snd r)
     = sent s
       ++ ((fun i => CreditsUpdated (2 - Z.of_nat i))
             <$> seq 1 (Nat.min 5 (Z.to_nat 2))).
Proof.
  intros s r. split; [reflexivity|]. split; [reflexivity|].
  split; [reflexivity|]. split; [unfold JsNumber.two53; lia|].
  apply (decrement_times_counts_down calm_shell 5 s 2%Z).
  all: first [reflexivity | unfold JsNumber.two53; lia].
Defined.

(** The page is never told a count it does not hold: each of the two
    credit handlers either leaves the count and the messages as they
    were, or sets the count and sends that same count, and nothing
    else. *)
Theorem credit_messages_match_page sh s v :
  let after (s' : Shell) :=
    (CREDITS s' = CREDITS s /\ sent s' = sent s)
    \/ exists n, CREDITS s' = Some n /\ sent s' = sent s ++ [CreditsUpdated n] in
  after (snd (set_initial_credits sh v s))
  /\ after (snd (decrement_credits sh s)).
Proof.
  intros after. unfold after. split.
  - destruct s as [hw ds cr msgs n vw q xq calls].
    unfold set_initial_credits. sh_eval. destruct hw; cbn [negb]; [|by left].
    destruct (js_fault sh n); cbn [snd CREDITS sent]; [by left|].
    right. by exists v.
  - rewrite decrement_credits_run. cbn [snd].
    destruct (has_window s); cbn [negb]; [|by left].
    destruct (js_fault sh (js_runs s));
      [left; cbn; by rewrite app_nil_r|].
    destruct (CREDITS s) as [c|] eqn:Hc;
      [|left; cbn; by rewrite app_nil_r].
    destruct (0 <? c)%Z; [|left; cbn; by rewrite app_nil_r].
    destruct (js_fault sh (S (js_runs s)));
      [left; cbn; by rewrite app_nil_r|].
    right. by exists (JsNumber.minus_one c).
Qed.

(** Without an API key neither screenshot handler starts the processing:
    they call nothing, tell the window (if there is one) that the key is
    invalid, and the trigger reports ["API key required"]. *)
Theorem no_processing_without_key sh cfg s :
  hasApiKey cfg = false ->
  let told := if has_window s then [ApiKeyInvalid] else [] in
  let p := process_screenshots sh cfg s in
  let t := trigger_process_screenshots sh cfg s in
  fst p = Return tt
  /\ dep_calls (snd p) = dep_calls s
  /\ sent (snd p) = sent s ++ told
  /\ fst t = Return (mkReply (Some false) (Some "API key required"))
  /\ dep_calls (snd t) = dep_calls s
  /\ sent (snd t) = sent s ++ told.
Proof.
  intros Hk. destruct s as [hw ds cr msgs n vw q xq calls].
  unfold process_screenshots, trigger_process_screenshots. rewrite Hk.
  cbn [negb]. sh_eval. destruct hw; cbn; by rewrite ?app_nil_r.
Qed.

Lemma no_processing_without_key_witness :
  let cfg := mkConfig false None None in
  let s := shell_with None ["/shots/1.png"] [] "queue" in
  let told := if has_window s then [ApiKeyInvalid] else [] in
  let p := process_screenshots calm_shell cfg s in
  let t := trigger_process_screenshots calm_shell cfg s in
  hasApiKey cfg = false
  /\ fst p = Return tt
  /\ dep_calls (snd p) = dep_calls s
  /\ sent (snd p) = sent s ++ told
  /\ fst t = Return (mkReply (Some false) (Some "API key required"))
  /\ dep_calls (snd t) = dep_calls s
  /\ sent (snd t) = sent s ++ told.
Proof.
  intros cfg s told p t. split; [reflexivity|].
  apply (no_processing_without_key calm_shell cfg s). reflexivity.
Defined.

(** The trigger never throws, whatever the processing does: a failure of
    the processing comes back as a reply with the fixed error text and no
    [success] field, and [success: true] is only ever reported with an API
    key and a processing that did not fail. *)
Theorem trigger_process_never_throws sh cfg s :
  let t := trigger_process_screenshots sh cfg s in
  (exists reply, fst t = Return reply)
  /\ (fst t = Return (mkReply (Some true) None)
      <-> hasApiKey cfg = true
          /\ (has_helper sh = true -> process_fault sh = None))
  /\ (forall e, hasApiKey cfg = true -> has_helper sh = true ->
                process_fault sh = Some e ->
                fst t = Return (mkReply None
                                  (Some "Failed to process screenshots"))
                /\ fst (process_screenshots sh cfg s) = Throw e).
Proof.
  destruct s as [hw ds cr msgs n vw q xq calls].
  unfold trigger_process_screenshots, process_screenshots.
  destruct (hasApiKey cfg); cbn [negb]; sh_eval.
  - destruct (has_helper sh); [destruct (process_fault sh) as [e|]|];
      cbn [fst]; (split; [by eexists|]); split.
    + split; [done|]. intros [_ H]. by specialize (H eq_refl).
    + intros e' _ _ [= <-]. done.
    + done.
    + done.
    + done.
    + done.
  - destruct hw; cbn [fst]; (split; [by eexists|]); split;
      try done; split; try done; by intros [? _].
Qed.

(** [delete-last-screenshot] never throws and only ever asks for one
    deletion, that of the last path of the queue on view: nothing is
    asked for when that queue is empty, and the other queue plays no
    part. *)
Theorem delete_last_targets_queue_on_view sh s :
  let queue := if String.eqb (view s) "queue"
               then screenshotQueue s else extraScreenshotQueue s in
  let r := delete_last_screenshot sh s in
  (exists reply, fst r = Return reply)
  /\ dep_calls (snd r)
     = dep_calls s
       ++ match last queue with
          | Some path => [DeleteScreenshot path]
          | None => []
          end
  /\ (queue = [] ->
      fst r = Return (mkReply (Some false) (Some "No screenshots to delete"))
      /\ sent (snd r) = sent s).
Proof.
  destruct s as [hw ds cr msgs n vw q xq calls].
  unfold delete_last_screenshot. sh_eval.
  destruct (last (if String.eqb vw "queue" then q else xq)) as [path|] eqn:Hl.
  - sh_eval. destruct (delete_reply sh path) as [e|reply]; sh_eval.
    + cbn [fst snd]. split; [by eexists|]. split; [done|].
      intros Hq. by rewrite Hq in Hl.
    + destruct (hw && negb ds); sh_eval; cbn [fst snd];
        (split; [by eexists|]); (split; [done|]);
        intros Hq; by rewrite Hq in Hl.
  - sh_eval. cbn [fst snd]. split; [by eexists|].
    split; [by rewrite app_nil_r|]. done.
Qed.

(** The window hears of a deletion exactly when the deletion call came
    back (whatever it reported) and the window is there and not
    destroyed; the reply of the call is passed on as it is, and a call
    that throws becomes the fixed failure reply. *)
Theorem delete_last_reports sh s path :
  last (if String.eqb (view s) "queue"
        then screenshotQueue s else extraScreenshotQueue s) = Some path ->
  let r := delete_last_screenshot sh s in
  match delete_reply sh path with
  | inr reply =>
      fst r = Return reply
      /\ sent (snd r)
         = sent s ++ (if has_window s && negb (destroyed s)
                      then [ScreenshotDeleted path] else [])
  | inl _ =>
      fst r = Return (mkReply (Some false)
                        (Some "Failed to delete last screenshot"))
      /\ sent (snd r) = sent s
  end.
Proof.
  intros Hl. destruct s as [hw ds cr msgs n vw q xq calls].
  cbn [view screenshotQueue extraScreenshotQueue] in Hl.
  unfold delete_last_screenshot. sh_eval. rewrite Hl. sh_eval.
  destruct (delete_reply sh path) as [e|reply]; sh_eval; [done|].
  destruct (hw && negb ds); sh_eval; cbn [fst snd]; [done|].
  by rewrite app_nil_r.
Qed.

Lemma delete_last_reports_witness :
  let s := shell_with None ["/shots/1.png"; "/shots/2.png"] ["/extra/9.png"]
             "queue" in
  let r := delete_last_screenshot calm_shell s in
  last (if String.eqb (view s) "queue"
        then screenshotQueue s else extraScreenshotQueue s)
  = Some "/shots/2.png"
  /\ match delete_reply calm_shell "/shots/2.png" with
     | inr reply =>
         fst r = Return reply
         /\ sent (snd r)
            = sent s ++ (if has_window s && negb (destroyed s)
                         then [ScreenshotDeleted "/shots/2.png"] else [])
     | inl _ =>
         fst r = Return (mkReply (Some false)
                           (Some "Failed to delete last screenshot"))
         /\ sent (snd r) = sent s
     end.
Proof.
  intros s r. split; [reflexivity|].
  apply (delete_last_reports calm_shell s "/shots/2.png"). reflexivity.
Defined.

(** ** Calls without a credential *)

(** Without a usable credential (no key configured, or an empty one) both
    audio handlers throw before they do anything: no file is written, no
    request is sent, the clock is not read, and the message tells a refused
    key from a missing one. *)
Theorem handlers_reject_without_credential h cfg buf fn question w :
  (forall key, ~ configured cfg key) ->
  transcribe_audio h cfg buf fn w =
  (Throw (if hasApiKey cfg then "API key not found"
          else "API key is required for audio transcription"), w)
  /\ generate_behavioral_answer h cfg question w =
     (Throw (if hasApiKey cfg then "API key not found"
             else "API key is required for answer generation"), w).
Proof.
  intros Hn. split.
  - by apply transcribe_rejects_without_credential.
  - by apply generate_rejects_without_credential.
Qed.

Lemma handlers_reject_without_credential_witness :
  let cfg := mkConfig true (Some "") None in
  (forall key, ~ configured cfg key)
  /\ transcribe_audio sample_host cfg webm_bytes "recording.webm" fresh_world =
     (Throw (if hasApiKey cfg then "API key not found"
             else "API key is required for audio transcription"),
      fresh_world)
  /\ generate_behavioral_answer sample_host cfg "Why this company?"
       fresh_world =
     (Throw (if hasApiKey cfg then "API key not found"
             else "API key is required for answer generation"),
      fresh_world).
Proof.
  intros cfg.
  assert (forall key, ~ configured cfg key) as Hn.
  { intros key (_ & Ha & Hne). cbn in Ha. congruence. }
  split; [exact Hn|].
  apply (handlers_reject_without_credential sample_host cfg webm_bytes
           "recording.webm" "Why this company?" fresh_world Hn).
Defined.
